(** * rnbo.py: from a Faust JSON manifest to an RNBO patch

    A shallow embedding of [architecture/max-msp/rnbo.py].  The script
    flattens the "ui" tree of the JSON manifest written by the Faust
    compiler into a list of control descriptors ([extract_items_info]),
    and then issues a fixed sequence of calls to the py2max object model
    to build the patch ([create_rnbo_patch]); [gen_faust_rnbo] chains
    the two.

    Layout of the development:
    - [Py]      outcomes of Python code (value or exception) and the
                JSON-decoded values with the operations the script uses;
    - [Info]    the extractor, as a function of the decoded manifest;
    - [Heap]    the extractor again, over a store of mutable lists and
                dicts, to state what the call does to its argument;
    - [Max]     the calls made to py2max and the patch they build;
    - [Untyped] the patch builder again, on a list that need not come
                from the extractor. *)

From Stdlib Require Import ZArith String Ascii List Lia.
From stdpp Require Import base option list gmap strings pretty.

#[local] Set Warnings "-register-all".
Local Open Scope string_scope.
Local Open Scope list_scope.

(** ** Python outcomes and JSON-decoded values *)

Module Py.

(** The exceptions the script can run into.  None of them is caught.
    [PatcherIOError] is what py2max raises when the file of a patcher
    cannot be written. *)
Inductive exn : Type :=
| TypeError
| AttributeError
| KeyError
| PatcherIOError.

(** A call returns a value or raises.  [OutOfFuel] belongs to the
    embedding only: recursion is bounded by a counter, and the lemmas
    below show that the counter the entry points supply is never used up. *)
Inductive outcome (A : Type) : Type :=
| Val (a : A)
| Raise (e : exn)
| OutOfFuel.

Arguments Val {A} a.
Arguments Raise {A} e.
Arguments OutOfFuel {A}.

Definition bind {A B : Type} (m : outcome A) (k : A -> outcome B) : outcome B :=
  match m with
  | Val a => k a
  | Raise e => Raise e
  | OutOfFuel => OutOfFuel
  end.

Declare Scope outcome_scope.
Delimit Scope outcome_scope with outcome.
Bind Scope outcome_scope with outcome.
Notation "x <- m ; k" := (bind m (fun x => k))
  (at level 20, m at level 100, k at level 200, only parsing) : outcome_scope.
Open Scope outcome_scope.

(** [for x in xs: s = body(s, x)], stopping at the first exception. *)
Fixpoint for_each {A S : Type} (xs : list A) (s : S)
    (body : S -> A -> outcome S) : outcome S :=
  match xs with
  | [] => Val s
  | x :: xs' => s' <- body s x; for_each xs' s' body
  end.

(** Code with effects on a state [S]: it returns an outcome and the state
    it leaves, also when it raises. *)
Definition prog (S A : Type) : Type := S -> outcome A * S.

Definition ret {S A : Type} (a : A) : prog S A := fun s => (Val a, s).

Definition lift {S A : Type} (o : outcome A) : prog S A := fun s => (o, s).

Definition pbind {S A B : Type} (m : prog S A) (k : A -> prog S B) : prog S B :=
  fun s =>
    match m s with
    | (Val a, s') => k a s'
    | (Raise e, s') => (Raise e, s')
    | (OutOfFuel, s') => (OutOfFuel, s')
    end.

Declare Scope prog_scope.
Delimit Scope prog_scope with prog.
Bind Scope prog_scope with prog.
Notation "x <- m ; k" := (pbind m (fun x => k))
  (at level 20, m at level 100, k at level 200, only parsing) : prog_scope.

(** [for x in xs: body(x)] for a body with effects. *)
Fixpoint pfor {S A : Type} (xs : list A) (body : A -> prog S unit) : prog S unit :=
  match xs with
  | [] => ret tt
  | x :: xs' => pbind (body x) (fun _ => pfor xs' body)
  end.

(** A JSON number decodes to an [int] (unbounded) or to a [float], kept
    as the 64 bits of its IEEE-754 encoding: the script never computes
    with the numbers of the manifest, it only passes them on. *)
Inductive number : Type :=
| Int (z : Z)
| Float (bits : Z).

(** What [json.load] returns.  A dict is kept as its items in insertion
    order; lookup takes the first binding of a key. *)
Inductive json : Type :=
| JNone
| JBool (b : bool)
| JNum (n : number)
| JStr (s : string)
| JArr (elems : list json)
| JObj (items : list (string * json)).

(** [dict[key]], if the key is there. *)
Fixpoint lookup_key {A : Type} (key : string) (items : list (string * A)) : option A :=
  match items with
  | [] => None
  | (k, v) :: rest => if String.eqb k key then Some v else lookup_key key rest
  end.

(** [v == s] for a string literal [s]: only a string can be equal to it. *)
Definition eq_str (v : json) (s : string) : bool :=
  match v with
  | JStr t => String.eqb t s
  | _ => false
  end.

(** [v in [s1, s2, ...]] for a list of string literals. *)
Definition in_strs (v : json) (ss : list string) : bool :=
  existsb (eq_str v) ss.

(** [sub in s] on strings. *)
Fixpoint substring_of (sub s : string) : bool :=
  String.prefix sub s ||
  match s with
  | EmptyString => false
  | String _ s' => substring_of sub s'
  end.

(** [key in container] *)
Definition contains (container : json) (key : string) : outcome bool :=
  match container with
  | JObj items => Val (bool_decide (is_Some (lookup_key key items)))
  | JArr elems => Val (existsb (fun v => eq_str v key) elems)
  | JStr s => Val (substring_of key s)
  | _ => Raise TypeError
  end.

(** [container[key]] for a string key. *)
Definition getitem (container : json) (key : string) : outcome json :=
  match container with
  | JObj items =>
      match lookup_key key items with
      | Some v => Val v
      | None => Raise KeyError
      end
  | _ => Raise TypeError
  end.

(** [obj.get(key, default)]: only a dict has the method. *)
Definition get (obj : json) (key : string) (default : json) : outcome json :=
  match obj with
  | JObj items => Val (from_option id default (lookup_key key items))
  | _ => Raise AttributeError
  end.

(** The elements a [for] loop runs over: the elements of a list, the keys
    of a dict, the characters of a string. *)
Definition iter (v : json) : outcome (list json) :=
  match v with
  | JArr elems => Val elems
  | JObj items => Val (map (fun kv => JStr (fst kv)) items)
  | JStr s => Val (map (fun c => JStr (String c EmptyString)) (list_ascii_of_string s))
  | _ => Raise TypeError
  end.

(** Nesting depth, the measure that bounds the recursion of the script. *)
Fixpoint depth (v : json) : nat :=
  match v with
  | JArr elems => S (fold_right (fun e d => Nat.max (depth e) d) 0 elems)
  | JObj items => S (fold_right (fun kv d => Nat.max (depth (snd kv)) d) 0 items)
  | _ => 0
  end.

End Py.

(** ** The metadata extractor *)

Module Info.
Import Py.

(** The dict appended to [info_list]; it always has these six keys. *)
Record descriptor : Type := Descriptor {
  shortname : json;
  type : json;
  init : json;
  min : json;
  max : json;
  step : json
}.

(** One pass of the loop body of [extract_from_ui] up to the recursive
    call: the descriptor, if any, that [item] itself adds. *)
Definition own_info (item : json) (info_list : list descriptor)
    : outcome (list descriptor) :=
  shortname <- get item "shortname" (JStr "");
  item_type <- get item "type" (JStr "");
  if in_strs item_type ["button"; "checkbox"] then
    Val (info_list ++
         [Descriptor shortname item_type
            (JNum (Int 0)) (JNum (Int 0)) (JNum (Int 1)) (JNum (Int 1))])
  else
    has_min <- contains item "min";
    has_max <- (if has_min then contains item "max" else Val false);
    has_step <- (if has_max then contains item "step" else Val false);
    if has_step then
      init_value <- get item "init" (JNum (Int 0));
      min_value <- getitem item "min";
      max_value <- getitem item "max";
      step_value <- getitem item "step";
      Val (info_list ++
           [Descriptor shortname item_type init_value min_value max_value step_value])
    else Val info_list.

(** The nested function [extract_from_ui].  A call uses one unit of
    [fuel] for itself and hands the rest to the calls it makes on the
    "items" of its elements. *)
Fixpoint extract_from_ui (fuel : nat) (ui_items : json) : outcome (list descriptor) :=
  match fuel with
  | 0 => OutOfFuel
  | S fuel' =>
      items <- iter ui_items;
      for_each items [] (fun info_list item =>
        info_list <- own_info item info_list;
        has_items <- contains item "items";
        if has_items then
          sub_items <- getitem item "items";
          sub_list <- extract_from_ui fuel' sub_items;
          Val (info_list ++ sub_list)
        else Val info_list)
  end.

(** [extract_items_info]: the fuel it gives is more than the "ui"
    section is deep, which is as much as any run needs
    ([InfoFacts.extract_from_ui_fuel], [InfoFacts.extract_items_info_total]). *)
Definition extract_items_info (json_data : json) : outcome (list descriptor) :=
  has_ui <- contains json_data "ui";
  if has_ui then
    ui_section <- getitem json_data "ui";
    extract_from_ui (S (depth ui_section)) ui_section
  else Val [].

(** *** The reading of the specification

    The definitions below are not taken from the code: they say, in the
    words of the specification, what the extractor is meant to compute,
    and the theorems compare them with [extract_items_info]. *)

(** [item.get(key, default)] on the fields of a UI element. *)
Definition field (fields : list (string * json)) (key : string) (default : json) : json :=
  from_option id default (lookup_key key fields).

(** Control descriptor of a UI element: "booleans get fixed range [0,1]
    step 1, continuous controls copy their source-supplied range"; an
    element that is neither has none. *)
Definition control_of (fields : list (string * json)) : list descriptor :=
  let shortname := field fields "shortname" (JStr "") in
  let item_type := field fields "type" (JStr "") in
  if in_strs item_type ["button"; "checkbox"] then
    [Descriptor shortname item_type
       (JNum (Int 0)) (JNum (Int 0)) (JNum (Int 1)) (JNum (Int 1))]
  else
    match lookup_key "min" fields, lookup_key "max" fields, lookup_key "step" fields with
    | Some min_value, Some max_value, Some step_value =>
        [Descriptor shortname item_type (field fields "init" (JNum (Int 0)))
           min_value max_value step_value]
    | _, _, _ => []
    end.

(** Depth-first traversal of a list of UI elements: the descriptor of an
    element, then those of its nested "items", then those of the
    siblings that follow it. *)
Inductive preorder : list json -> list descriptor -> Prop :=
| preorder_nil :
    preorder [] []
| preorder_leaf fields rest l :
    lookup_key "items" fields = None ->
    preorder rest l ->
    preorder (JObj fields :: rest) (control_of fields ++ l)
| preorder_node fields children rest lc l :
    lookup_key "items" fields = Some (JArr children) ->
    preorder children lc ->
    preorder rest l ->
    preorder (JObj fields :: rest) (control_of fields ++ lc ++ l).

(** [ui_item ui item]: [item] is an element of the tree [ui], at the top
    or below the "items" of another element. *)
Inductive ui_item : json -> json -> Prop :=
| ui_item_here items item :
    In item items ->
    ui_item (JArr items) item
| ui_item_below items fields sub item :
    In (JObj fields) items ->
    lookup_key "items" fields = Some sub ->
    ui_item sub item ->
    ui_item (JArr items) item.

(** The kinds of parameters the header of the script lists: "button,
    checkbox, sliders, nentry", under the names Faust gives them. *)
Definition control_kinds : list string :=
  ["button"; "checkbox"; "hslider"; "vslider"; "nentry"].

(** *** The manifests the extractor accepts, and what it reads of them

    Not taken from the code either: the shape of a "ui" section on which
    no lookup and no loop of the extractor fails, and the part of such a
    section its result depends on. *)

(** [ui_tree v]: the loop of [extract_from_ui] can run over [v], every
    element it meets is a dict, and the "items" of an element, if it has
    any, are again such a value. *)
Inductive ui_tree : json -> Prop :=
| ui_tree_iter v items :
    iter v = Val items ->
    ui_elems items ->
    ui_tree v
with ui_elems : list json -> Prop :=
| ui_elems_nil :
    ui_elems []
| ui_elems_leaf fields rest :
    lookup_key "items" fields = None ->
    ui_elems rest ->
    ui_elems (JObj fields :: rest)
| ui_elems_node fields sub rest :
    lookup_key "items" fields = Some sub ->
    ui_tree sub ->
    ui_elems rest ->
    ui_elems (JObj fields :: rest).

(** The keys of an element that go into its descriptor. *)
Definition read_keys : list string :=
  ["shortname"; "type"; "init"; "min"; "max"; "step"].

(** [strip ui_items] drops from every element of the tree all fields but
    those under [read_keys] and "items"; the values under [read_keys]
    stay as they are. *)
Definition strip_fields (strip : json -> json)
    : list (string * json) -> list (string * json) :=
  fix go fields :=
    match fields with
    | [] => []
    | (k, v) :: rest =>
        if String.eqb k "items" then (k, strip v) :: go rest
        else if existsb (String.eqb k) read_keys then (k, v) :: go rest
        else go rest
    end.

Definition strip_item (strip : json -> json) (item : json) : json :=
  match item with
  | JObj fields => JObj (strip_fields strip fields)
  | _ => item
  end.

Fixpoint strip (ui_items : json) : json :=
  match ui_items with
  | JArr elems => JArr (map (strip_item strip) elems)
  | _ => ui_items
  end.

(** *** Manifests to try the extractor on *)

Definition freq_slider : json :=
  JObj [("type", JStr "hslider"); ("shortname", JStr "freq");
        ("init", JNum (Int 440)); ("min", JNum (Int 20));
        ("max", JNum (Int 20000));
        ("step", JNum (Float 4602678819172646912))].    (* 0.5 *)

(** A button that also has a "min", which the extractor does not read. *)
Definition gate_button : json :=
  JObj [("type", JStr "button"); ("shortname", JStr "gate");
        ("min", JNum (Int 5))].

Definition osc_group : json :=
  JObj [("type", JStr "vgroup"); ("label", JStr "osc");
        ("items", JArr [freq_slider; gate_button])].

Definition osc_manifest : json :=
  JObj [("name", JStr "osc"); ("inputs", JNum (Int 0));
        ("outputs", JNum (Int 2)); ("ui", JArr [osc_group])].

Definition freq_descriptor : descriptor :=
  Descriptor (JStr "freq") (JStr "hslider") (JNum (Int 440)) (JNum (Int 20))
    (JNum (Int 20000)) (JNum (Float 4602678819172646912)).

Definition gate_descriptor : descriptor :=
  Descriptor (JStr "gate") (JStr "button") (JNum (Int 0)) (JNum (Int 0))
    (JNum (Int 1)) (JNum (Int 1)).

(** A button with elements below it. *)
Definition gate_fields : list (string * json) :=
  [("type", JStr "button"); ("shortname", JStr "gate");
   ("items", JArr [freq_slider])].

(** A slider that lacks "min". *)
Definition slider_without_min : json :=
  JObj [("ui", JArr [JObj [("type", JStr "hslider"); ("shortname", JStr "gain");
                           ("init", JNum (Int 0)); ("max", JNum (Int 1));
                           ("step", JNum (Int 1))]])].

(** An element with a range and a type of its own. *)
Definition knob_manifest : json :=
  JObj [("ui", JArr [JObj [("type", JStr "knob"); ("shortname", JStr "gain");
                           ("init", JNum (Int 0)); ("min", JNum (Int 0));
                           ("max", JNum (Int 1)); ("step", JNum (Int 1))]])].

End Info.

(** ** The extractor over a store of mutable objects

    [json.load] returns lists and dicts, which Python passes by reference
    and lets any holder change.  This module runs the extractor on such
    objects: [info_list] and the descriptors are allocated in the store,
    [append] and [extend] update it in place, and the values copied into
    a descriptor are the very objects of the manifest. *)

Module Heap.
Import Py.
Local Open Scope prog_scope.

(** A value is immutable and carried as it is, or a reference to a list
    or a dict of the store. *)
Inductive value : Type :=
| VNone
| VBool (b : bool)
| VNum (n : number)
| VStr (s : string)
| VRef (l : nat).

Inductive object : Type :=
| OList (elems : list value)
| ODict (items : list (string * value)).

Abbreviation heap := (gmap nat object).

(** A list or dict display: a new object, at an address not in use. *)
Definition alloc (o : object) : prog heap value :=
  fun h => let l := fresh (dom h) in (Val (VRef l), <[l := o]> h).

Definition deref (v : value) (h : heap) : option object :=
  match v with
  | VRef l => h !! l
  | _ => None
  end.

Definition eq_str (v : value) (s : string) : bool :=
  match v with
  | VStr t => String.eqb t s
  | _ => false
  end.

Definition in_strs (v : value) (ss : list string) : bool :=
  existsb (eq_str v) ss.

(** [key in container] *)
Definition contains (container : value) (key : string) : prog heap bool :=
  fun h =>
    match container with
    | VStr s => (Val (substring_of key s), h)
    | _ =>
        match deref container h with
        | Some (ODict items) => (Val (bool_decide (is_Some (lookup_key key items))), h)
        | Some (OList elems) => (Val (existsb (fun v => eq_str v key) elems), h)
        | None => (Raise TypeError, h)
        end
    end.

(** [container[key]] for a string key. *)
Definition getitem (container : value) (key : string) : prog heap value :=
  fun h =>
    match deref container h with
    | Some (ODict items) =>
        match lookup_key key items with
        | Some v => (Val v, h)
        | None => (Raise KeyError, h)
        end
    | _ => (Raise TypeError, h)
    end.

(** [obj.get(key, default)] *)
Definition get (obj : value) (key : string) (default : value) : prog heap value :=
  fun h =>
    match deref obj h with
    | Some (ODict items) => (Val (from_option id default (lookup_key key items)), h)
    | _ => (Raise AttributeError, h)
    end.

(** The elements a loop over [v] runs through. *)
Definition iter (v : value) : prog heap (list value) :=
  fun h =>
    match v with
    | VStr s =>
        (Val (map (fun c => VStr (String c EmptyString)) (list_ascii_of_string s)), h)
    | _ =>
        match deref v h with
        | Some (OList elems) => (Val elems, h)
        | Some (ODict items) => (Val (map (fun kv => VStr (fst kv)) items), h)
        | None => (Raise TypeError, h)
        end
    end.

(** [lst.append(x)]: the list object itself is updated. *)
Definition append (lst x : value) : prog heap unit :=
  fun h =>
    match lst with
    | VRef l =>
        match h !! l with
        | Some (OList elems) => (Val tt, <[l := OList (elems ++ [x])]> h)
        | _ => (Raise AttributeError, h)
        end
    | _ => (Raise AttributeError, h)
    end.

(** [lst.extend(other)] *)
Definition extend (lst other : value) : prog heap unit :=
  xs <- iter other;
  fun h =>
    match lst with
    | VRef l =>
        match h !! l with
        | Some (OList elems) => (Val tt, <[l := OList (elems ++ xs)]> h)
        | _ => (Raise AttributeError, h)
        end
    | _ => (Raise AttributeError, h)
    end.

(** The dict display of the script: a new dict with the six keys. *)
Definition new_descriptor (shortname item_type init_value min_value max_value
    step_value : value) : prog heap value :=
  alloc (ODict [("shortname", shortname); ("type", item_type);
                ("init", init_value); ("min", min_value);
                ("max", max_value); ("step", step_value)]).

(** The loop body of [extract_from_ui] up to the recursive call, as
    [Info.own_info]; the descriptor goes into the list [info_list]
    refers to. *)
Definition own_info (info_list item : value) : prog heap unit :=
  shortname <- get item "shortname" (VStr "");
  item_type <- get item "type" (VStr "");
  if in_strs item_type ["button"; "checkbox"] then
    d <- new_descriptor shortname item_type
           (VNum (Int 0)) (VNum (Int 0)) (VNum (Int 1)) (VNum (Int 1));
    append info_list d
  else
    has_min <- contains item "min";
    has_max <- (if has_min then contains item "max" else ret false);
    has_step <- (if has_max then contains item "step" else ret false);
    if has_step then
      init_value <- get item "init" (VNum (Int 0));
      min_value <- getitem item "min";
      max_value <- getitem item "max";
      step_value <- getitem item "step";
      d <- new_descriptor shortname item_type init_value min_value max_value
             step_value;
      append info_list d
    else ret tt.

Fixpoint extract_from_ui (fuel : nat) (ui_items : value) : prog heap value :=
  match fuel with
  | 0 => lift OutOfFuel
  | S fuel' =>
      info_list <- alloc (OList []);
      items <- iter ui_items;
      _ <- pfor items (fun item =>
             _ <- own_info info_list item;
             has_items <- contains item "items";
             if has_items then
               sub_items <- getitem item "items";
               sub_list <- extract_from_ui fuel' sub_items;
               extend info_list sub_list
             else ret tt);
      ret info_list
  end.

Definition extract_items_info (fuel : nat) (json_data : value) : prog heap value :=
  has_ui <- contains json_data "ui";
  if has_ui then
    ui_section <- getitem json_data "ui";
    extract_from_ui fuel ui_section
  else alloc (OList []).

(** [repr h v j]: in the store [h] the value [v] is the object graph of
    the JSON document [j]. *)
Inductive repr (h : heap) : value -> json -> Prop :=
| repr_none : repr h VNone JNone
| repr_bool b : repr h (VBool b) (JBool b)
| repr_num n : repr h (VNum n) (JNum n)
| repr_str s : repr h (VStr s) (JStr s)
| repr_arr l vs js :
    h !! l = Some (OList vs) ->
    Forall2 (repr h) vs js ->
    repr h (VRef l) (JArr js)
| repr_obj l vitems jitems :
    h !! l = Some (ODict vitems) ->
    Forall2 (fun vi ji => fst vi = fst ji /\ repr h (snd vi) (snd ji)) vitems jitems ->
    repr h (VRef l) (JObj jitems).

(** A descriptor as the dict the script builds. *)
Definition descriptor_json (d : Info.descriptor) : json :=
  JObj [("shortname", Info.shortname d); ("type", Info.type d);
        ("init", Info.init d); ("min", Info.min d);
        ("max", Info.max d); ("step", Info.step d)].

(** [grows he hs0 hs h]: a run that started in the store [he], of which
    [hs0] was in use by the caller, has reached the store [h]: what was
    in [he] is as it was, and [hs] is [hs0] with objects made since. *)
Definition grows (he hs0 hs h : heap) : Prop :=
  he ⊆ h /\ hs0 ⊆ hs /\ hs ⊆ h /\
  forall l, is_Some (hs !! l) -> is_Some (hs0 !! l) \/ he !! l = None.

(** The state of the loop of [extract_from_ui]: [info_list] is the list
    at [l0], made by this call, and holds the descriptors [acc]. *)
Definition acc_inv (he hs0 : heap) (l0 : nat) (hs h : heap)
    (acc : list Info.descriptor) : Prop :=
  grows he hs0 hs h /\ he !! l0 = None /\ hs !! l0 = None /\
  exists vs, h !! l0 = Some (OList vs) /\
             Forall2 (repr hs) vs (map descriptor_json acc).

(** The outcome [r] of the extractor on the store matches the outcome
    [o] on the document: the same exception, or a new list, at an address
    that was free in [he], of dicts that stand for the descriptors. *)
Definition returns_repr (he hs h : heap) (r : outcome value)
    (o : outcome (list Info.descriptor)) : Prop :=
  match o with
  | Val ds =>
      exists l ws,
        r = Val (VRef l) /\ h !! l = Some (OList ws) /\
        he !! l = None /\ hs !! l = None /\
        Forall2 (repr hs) ws (map descriptor_json ds)
  | Raise e => r = Raise e
  | OutOfFuel => r = OutOfFuel
  end.

(** With [fuel], the extractor on the store does what the extractor on
    the document does, and leaves what was in the store as it was. *)
Definition refines_at (fuel : nat) : Prop :=
  forall j v hs0 he,
    hs0 ⊆ he -> repr hs0 v j ->
    exists r h' hs',
      extract_from_ui fuel v he = (r, h') /\ grows he hs0 hs' h' /\
      returns_repr he hs' h' r (Info.extract_from_ui fuel j).

(** *** A store to try the extractor on

    The object graph of [{"ui": [{"type": "button", "shortname": "gate"}]}],
    at the addresses 1, 2 and 3. *)

Definition gate_document : json :=
  JObj [("ui", JArr [JObj [("type", JStr "button"); ("shortname", JStr "gate")]])].

Definition gate_store : heap :=
  <[1 := ODict [("ui", VRef 2)]]>
    (<[2 := OList [VRef 3]]>
       (<[3 := ODict [("type", VStr "button"); ("shortname", VStr "gate")]]> ∅)).

End Heap.

(** ** The patch builder, over the py2max object model *)

Module Max.
Import Py Info.
Local Open Scope prog_scope.

(** Coordinates are Python floats.  The script writes float literals and
    subtracts one integer from a coordinate; nothing here depends on how
    that arithmetic rounds, so it is left to the instance. *)
Class PyFloat : Type := {
  float : Type;
  float_of_Z : Z -> float;
  float_sub : float -> float -> float
}.

Section Py2max.
Context {F : PyFloat}.

(** [patching_rect]: x, y, width, height. *)
Record Rect : Type := mkRect { x : float; y : float; w : float; h : float }.

(** A box of a patcher, by the call that made it.  [id] is the number in
    its "obj-N" name; [subpatcher] is a reference to a patcher of the
    store, shared with whoever reads the attribute. *)
Inductive Box : Type :=
| Comment (id : nat) (text : string) (patching_rect : Rect)
| Textbox (id : nat) (text : string) (patching_rect : Rect)
          (kwds : list (string * json))
| Rnbo (id : nat) (saved_object_attributes : list (string * json))
       (patching_rect : Rect) (subpatcher : nat)
| CodeboxTilde (id : nat) (code : string) (patching_rect : Rect).

Definition box_id (b : Box) : nat :=
  match b with
  | Comment id _ _ | Textbox id _ _ _ | Rnbo id _ _ _ | CodeboxTilde id _ _ => id
  end.

Definition patching_rect (b : Box) : Rect :=
  match b with
  | Comment _ _ r | Textbox _ _ r _ | Rnbo _ _ r _ | CodeboxTilde _ _ r => r
  end.

(** [box.subpatcher] *)
Definition subpatcher (b : Box) : outcome nat :=
  match b with
  | Rnbo _ _ _ sp => Val sp
  | _ => Raise AttributeError
  end.

(** A patchline goes from an outlet of its source to an inlet of its
    destination. *)
Record Patchline : Type := mkLine {
  source : nat * Z;
  destination : nat * Z
}.

Record Patcher : Type := mkPatcher {
  path : string;
  boxes : list Box;
  lines : list Patchline
}.

(** The patcher objects alive, by reference, and the files [save] has
    written: under its path, a file holds the objects as they were when
    it was written and the reference of the patcher saved.  A file
    written again under the same path takes the place of the old one. *)
Record world : Type := mkWorld {
  patchers : list Patcher;
  disk : gmap string (nat * list Patcher)
}.

Definition empty_world : world := mkWorld [] ∅.

(** What the script takes from its environment: the rectangle py2max's
    layout manager gives a box that comes without one, the text
    Python's [str] gives a value that is neither a string, an [int],
    a [bool] nor [None], and whether the file system lets a file be
    written under a path. *)
Class Host : Type := {
  get_pos : Patcher -> string -> Rect;
  str_other : json -> string;
  writable : string -> bool
}.

Context {H : Host}.

(** [f"{v}"] *)
Definition str (v : json) : string :=
  match v with
  | JStr s => s
  | JNum (Int z) => pretty z
  | JBool true => "True"
  | JBool false => "False"
  | JNone => "None"
  | _ => str_other v
  end.

(** [range(n)]: [n] has to be an [int] ([bool] is one). *)
Definition range (n : json) : outcome (list Z) :=
  match n with
  | JNum (Int z) => Val (seqZ 0 z)
  | JBool b => Val (seqZ 0 (if b then 1 else 0))
  | _ => Raise TypeError
  end.

(** [Patcher(path)] *)
Definition new_patcher (path : string) : prog world nat :=
  fun σ => (Val (length (patchers σ)),
            mkWorld (patchers σ ++ [mkPatcher path [] []]) (disk σ)).

Definition the_patcher (p : nat) (σ : world) : Patcher :=
  default (mkPatcher "" [] []) (patchers σ !! p).

(** Every [add_...] method ends in [add_box]: the box gets the next id of
    its patcher and, unless the caller gave one, a rectangle from the
    layout manager; it is appended to the boxes and returned. *)
Definition add_box (p : nat) (maxclass : string) (patching_rect : option Rect)
    (mk : nat -> Rect -> Box) : prog world Box :=
  fun σ =>
    let this := the_patcher p σ in
    let r := default (get_pos this maxclass) patching_rect in
    let b := mk (S (length (boxes this))) r in
    (Val b,
     mkWorld (<[p := mkPatcher (path this) (boxes this ++ [b]) (lines this)]> (patchers σ))
             (disk σ)).

Definition add_comment (p : nat) (text : string) (patching_rect : option Rect)
    : prog world Box :=
  add_box p "comment" patching_rect (fun id r => Comment id text r).

(** A box keeps the keywords it is made with, but not those whose value
    is [None]. *)
Definition not_none (kv : string * json) : bool :=
  match snd kv with
  | JNone => false
  | _ => true
  end.

Definition add_textbox (p : nat) (text : string) (patching_rect : option Rect)
    (kwds : list (string * json)) : prog world Box :=
  add_box p text patching_rect
    (fun id r => Textbox id text r (List.filter not_none kwds)).

(** The text a codebox holds: in a text without carriage return every
    line feed is made a carriage return and a line feed. *)
Fixpoint has_cr (code : string) : bool :=
  match code with
  | EmptyString => false
  | String c rest => Ascii.eqb c "013"%char || has_cr rest
  end.

Fixpoint crlf (code : string) : string :=
  match code with
  | EmptyString => EmptyString
  | String c rest =>
      if Ascii.eqb c "010"%char then String "013"%char (String "010"%char (crlf rest))
      else String c (crlf rest)
  end.

Definition codebox_text (code : string) : string :=
  if has_cr code then code else crlf code.

Definition add_codebox_tilde (p : nat) (code : string) (patching_rect : option Rect)
    : prog world Box :=
  add_box p "codebox~" patching_rect
    (fun id r => CodeboxTilde id (codebox_text code) r).

(** [add_rnbo] makes the box together with an empty patcher of its own. *)
Definition add_rnbo (p : nat) (saved_object_attributes : list (string * json))
    (patching_rect : option Rect) : prog world Box :=
  sp <- new_patcher "";
  add_box p "rnbo~" patching_rect (fun id r => Rnbo id saved_object_attributes r sp).

(** [add_line(src, dst, inlet=..., outlet=...)] *)
Definition add_line (p : nat) (src dst : Box) (inlet outlet : Z) : prog world unit :=
  fun σ =>
    let this := the_patcher p σ in
    let l := mkLine (box_id src, outlet) (box_id dst, inlet) in
    (Val tt,
     mkWorld (<[p := mkPatcher (path this) (boxes this) (lines this ++ [l])]> (patchers σ))
             (disk σ)).

(** [patcher.save()]: a patcher with the empty path is not written;
    any other is written, with all it refers to, under its path, if the
    file system lets it, and else the call raises. *)
Definition can_save (path : string) : bool :=
  String.eqb path "" || writable path.

Definition written (path : string) (file : nat * list Patcher)
    (disk : gmap string (nat * list Patcher)) : gmap string (nat * list Patcher) :=
  if String.eqb path "" then disk else <[path := file]> disk.

Definition save (p : nat) : prog world unit :=
  fun σ =>
    let this := the_patcher p σ in
    if can_save (path this) then
      (Val tt, mkWorld (patchers σ) (written (path this) (p, patchers σ) (disk σ)))
    else (Raise PatcherIOError, σ).

Definition rect (x y w h : Z) : Rect :=
  mkRect (float_of_Z x) (float_of_Z y) (float_of_Z w) (float_of_Z h).

Definition create_rnbo_patch (maxpat_path dsp_name codebox_code : string)
    (items_info_list : list descriptor) (num_inputs num_outputs : json)
    : prog world unit :=
  (* Create the patcher *)
  patcher <- new_patcher maxpat_path;
  (* Faust generated patch *)
  _ <- add_comment patcher "Faust generated RNBO patch, Copyright (c) 2023 Grame"
         (Some (rect 50 20 250 50));
  (* Add the audio driver output *)
  audio_out <- add_textbox patcher "ezdac~" (Some (rect 50 100 50 50)) [];
  sbox <- add_rnbo patcher [("optimization", JStr "O3"); ("title", JStr dsp_name)]
            (Some (rect 50 60 50 50));
  (* Create the subpatcher *)
  sp <- lift (subpatcher sbox);
  (* Create codebox~ section *)
  codebox <- add_codebox_tilde sp codebox_code (Some (rect 200 200 400 400));
  (* Generating the lines of code for inputs *)
  inputs <- lift (range num_inputs);
  _ <- pfor inputs (fun i =>
         input_box <- add_textbox sp ("in~ " +:+ pretty (i + 1)%Z) None [];
         add_line sp input_box codebox i 0);
  (* Generating the lines of code for outputs *)
  outputs <- lift (range num_outputs);
  _ <- pfor outputs (fun i =>
         output_box <- add_textbox sp ("out~ " +:+ pretty (i + 1)%Z) None [];
         add_line sp codebox output_box 0 i);
  (* Add parameter control *)
  _ <- pfor items_info_list (fun item =>
         let shortname := shortname item in
         let item_type := type item in
         param <- add_textbox sp ("set " +:+ str shortname) None [];
         value <-
           (if in_strs item_type ["button"; "checkbox"] then
              add_textbox sp "toggle"
                (Some (mkRect (x (patching_rect param))
                              (float_sub (y (patching_rect param)) (float_of_Z 25))
                              (float_of_Z 24) (float_of_Z 24)))
                []
            else
              let min_value := min item in
              let max_value := max item in
              let init_value := init item in
              add_textbox sp "number~"
                (Some (mkRect (x (patching_rect param))
                              (float_sub (y (patching_rect param)) (float_of_Z 25))
                              (w (patching_rect param))
                              (h (patching_rect param))))
                [("mode", JNum (Int 1)); ("sig", init_value);
                 ("minimum", min_value); ("maximum", max_value)]);
         _ <- add_line sp value param 0 0;
         add_line sp param codebox 0 0);
  (* And finally save the patch *)
  save patcher.

(** [gen_faust_rnbo] after its two files are read: [codebox_code] is the
    text of the codebox file and [json_data] what [json.load] made of the
    JSON file. *)
Definition gen_faust_rnbo (dsp_name codebox_code : string) (json_data : json)
    (maxpat_path : string) : prog world unit :=
  items_info_list <- lift (extract_items_info json_data);
  num_inputs <- lift (get json_data "inputs" (JNum (Int 0)));
  num_outputs <- lift (get json_data "outputs" (JNum (Int 0)));
  create_rnbo_patch maxpat_path dsp_name codebox_code items_info_list
    num_inputs num_outputs.

(** *** The patch the specification describes

    Not taken from the code: the boxes and lines the specification
    promises, to be compared with what [create_rnbo_patch] builds.  They
    say nothing of where a box is placed, so a box is compared after
    [unplaced] has put it at a fixed rectangle. *)

Definition no_rect : Rect := rect 0 0 0 0.

Definition unplaced (b : Box) : Box :=
  match b with
  | Comment id text _ => Comment id text no_rect
  | Textbox id text _ kwds => Textbox id text no_rect kwds
  | Rnbo id attrs _ sp => Rnbo id attrs no_rect sp
  | CodeboxTilde id code _ => CodeboxTilde id code no_rect
  end.

(** The input stub for the index [i], the [k]-th box after the one with
    id [base], and its line to inlet [i] of the box [code_id]. *)
Definition input_stub (base k : nat) (i : Z) : Box :=
  Textbox (base + k) ("in~ " +:+ pretty (i + 1)%Z) no_rect [].

Definition input_line (code_id base k : nat) (i : Z) : Patchline :=
  mkLine (base + k, 0%Z) (code_id, i).

(** The output stub for the index [i], and its line from outlet [i] of
    the box [code_id]. *)
Definition output_stub (base k : nat) (i : Z) : Box :=
  Textbox (base + k) ("out~ " +:+ pretty (i + 1)%Z) no_rect [].

Definition output_line (code_id base k : nat) (i : Z) : Patchline :=
  mkLine (code_id, i) (base + k, 0%Z).

(** The setter of a descriptor and its display: "toggle for boolean
    kinds, numeric display otherwise", the numeric display with those of
    init, min and max that are not [None]. *)
Definition setter_of (id : nat) (item : descriptor) : Box :=
  Textbox id ("set " +:+ str (shortname item)) no_rect [].

Definition display_of (id : nat) (item : descriptor) : Box :=
  if in_strs (type item) ["button"; "checkbox"] then
    Textbox id "toggle" no_rect []
  else
    Textbox id "number~" no_rect
      (List.filter not_none
         [("mode", JNum (Int 1)); ("sig", init item);
          ("minimum", min item); ("maximum", max item)]).

(** The two boxes of the [k]-th descriptor, the first with id [base],
    and its two lines: from the display to the setter, from the setter to
    the box [code_id]. *)
Definition control_boxes (base k : nat) (item : descriptor) : list Box :=
  [setter_of (base + 2 * k) item; display_of (base + 2 * k + 1) item].

Definition control_lines (code_id base k : nat) (item : descriptor) : list Patchline :=
  [mkLine (base + 2 * k + 1, 0%Z) (base + 2 * k, 0%Z);
   mkLine (base + 2 * k, 0%Z) (code_id, 0%Z)].

(** A text box is told by the first word of its text. *)
Definition is_input_stub (b : Box) : bool :=
  match b with
  | Textbox _ text _ _ => String.prefix "in~ " text
  | _ => false
  end.

Definition is_output_stub (b : Box) : bool :=
  match b with
  | Textbox _ text _ _ => String.prefix "out~ " text
  | _ => false
  end.

Definition is_textbox (b : Box) : bool :=
  match b with
  | Textbox _ _ _ _ => true
  | _ => false
  end.

Definition text_of (b : Box) : option string :=
  match b with
  | Textbox _ text _ _ => Some text
  | _ => None
  end.

(** A text box whose text starts with "ezdac~". *)
Definition is_ezdac (b : Box) : bool :=
  match b with
  | Textbox _ text _ _ => String.prefix "ezdac~" text
  | _ => false
  end.

(** The id of a box with its text, if it is a text box. *)
Definition box_tag (b : Box) : nat * option string := (box_id b, text_of b).

(** *** Where the displays are put *)

(** The rectangle the script gives the display of [item], from the box
    [param] of its setter: the same x, 25 less in y, and 24 by 24 for a
    toggle or the width and height of the setter for a number~. *)
Definition display_rect (item : descriptor) (param : Box) : Rect :=
  let r := patching_rect param in
  if in_strs (type item) ["button"; "checkbox"] then
    mkRect (x r) (float_sub (y r) (float_of_Z 25)) (float_of_Z 24) (float_of_Z 24)
  else
    mkRect (x r) (float_sub (y r) (float_of_Z 25)) (w r) (h r).

(** [bs] holds, for each of [items] in turn, the box of the setter and
    then the box of the display, the display at [display_rect]. *)
Fixpoint displays_placed (items : list descriptor) (bs : list Box) : Prop :=
  match items, bs with
  | [], [] => True
  | item :: items', param :: value :: bs' =>
      patching_rect value = display_rect item param /\ displays_placed items' bs'
  | _, _ => False
  end.

(** *** What a call leaves behind *)

(** [quiet P Q m]: from every state, [m] returns a value in [Q] or
    raises an exception in [P]; it writes no file and leaves each
    patcher its path. *)
Definition quiet {A : Type} (P : exn -> Prop) (Q : A -> Prop) (m : prog world A)
    : Prop :=
  forall σ, exists r σ',
    m σ = (r, σ') /\
    disk σ' = disk σ /\
    (forall p s, path <$> patchers σ !! p = Some s ->
                 path <$> patchers σ' !! p = Some s) /\
    match r with
    | Val a => Q a
    | Raise e => P e
    | OutOfFuel => False
    end.

(** [saves P Q p s m]: where the patcher [p] has the path [s], [m]
    ends in [save] of that patcher or raises before: it returns a value
    in [Q], [save] went through and the files are as [save] left them,
    or it raises and the files are as they were, the exception one in
    [P] or that of a [save] that was reached, with a value in [Q], and
    did not go through. *)
Definition saves {A : Type} (P : exn -> Prop) (Q : A -> Prop) (p : nat) (s : string)
    (m : prog world A) : Prop :=
  forall σ, path <$> patchers σ !! p = Some s ->
    exists r σ',
      m σ = (r, σ') /\
      match r with
      | Val a =>
          Q a /\ can_save s = true /\
          disk σ' = written s (p, patchers σ') (disk σ)
      | Raise e =>
          disk σ' = disk σ /\
          (P e \/ (e = PatcherIOError /\ can_save s = false /\ exists a, Q a))
      | OutOfFuel => False
      end.

End Py2max.

(** *** An environment to run the builder in

    Whole numbers for coordinates, a layout manager that sets each new
    box 100 to the right of the last, "?" for the values [str] leaves
    to Python, and a file system that takes every file. *)

Definition ZFloat : PyFloat :=
  {| float := Z; float_of_Z := id; float_sub := Z.sub |}.

Definition row_host : @Host ZFloat :=
  {| get_pos := fun p _ =>
       @mkRect ZFloat (100 * Z.of_nat (length (@boxes ZFloat p)))%Z 50%Z 66%Z 22%Z;
     str_other := fun _ => "?";
     writable := fun _ => true |}.

(** A code text of two lines, with a line feed between them. *)
Definition two_lines : string :=
  "a = in1;" +:+ String "010"%char "out1 = a;".

End Max.

(** ** The patch builder on any list

    [Max.create_rnbo_patch] takes the list [extract_items_info] returns,
    whose elements have all six keys.  The function itself asks nothing
    of its argument: here it runs on whatever JSON value it is given,
    and a lookup can fail. *)

Module Untyped.
Import Py Info Max.
Local Open Scope prog_scope.

Section Py2max.
Context {F : PyFloat} {H : Host}.

(** [create_rnbo_patch] as it is written: [items_info_list] is looped
    over and each [item] is read by key. *)
Definition create_rnbo_patch (maxpat_path dsp_name codebox_code : string)
    (items_info_list num_inputs num_outputs : json) : prog world unit :=
  (* Create the patcher *)
  patcher <- new_patcher maxpat_path;
  (* Faust generated patch *)
  _ <- add_comment patcher "Faust generated RNBO patch, Copyright (c) 2023 Grame"
         (Some (rect 50 20 250 50));
  (* Add the audio driver output *)
  audio_out <- add_textbox patcher "ezdac~" (Some (rect 50 100 50 50)) [];
  sbox <- add_rnbo patcher [("optimization", JStr "O3"); ("title", JStr dsp_name)]
            (Some (rect 50 60 50 50));
  (* Create the subpatcher *)
  sp <- lift (subpatcher sbox);
  (* Create codebox~ section *)
  codebox <- add_codebox_tilde sp codebox_code (Some (rect 200 200 400 400));
  (* Generating the lines of code for inputs *)
  inputs <- lift (range num_inputs);
  _ <- pfor inputs (fun i =>
         input_box <- add_textbox sp ("in~ " +:+ pretty (i + 1)%Z) None [];
         add_line sp input_box codebox i 0);
  (* Generating the lines of code for outputs *)
  outputs <- lift (range num_outputs);
  _ <- pfor outputs (fun i =>
         output_box <- add_textbox sp ("out~ " +:+ pretty (i + 1)%Z) None [];
         add_line sp codebox output_box 0 i);
  (* Add parameter control *)
  items <- lift (iter items_info_list);
  _ <- pfor items (fun item =>
         shortname <- lift (getitem item "shortname");
         item_type <- lift (getitem item "type");
         param <- add_textbox sp ("set " +:+ str shortname) None [];
         value <-
           (if in_strs item_type ["button"; "checkbox"] then
              add_textbox sp "toggle"
                (Some (mkRect (x (patching_rect param))
                              (float_sub (y (patching_rect param)) (float_of_Z 25))
                              (float_of_Z 24) (float_of_Z 24)))
                []
            else
              min_value <- lift (getitem item "min");
              max_value <- lift (getitem item "max");
              init_value <- lift (getitem item "init");
              add_textbox sp "number~"
                (Some (mkRect (x (patching_rect param))
                              (float_sub (y (patching_rect param)) (float_of_Z 25))
                              (w (patching_rect param))
                              (h (patching_rect param))))
                [("mode", JNum (Int 1)); ("sig", init_value);
                 ("minimum", min_value); ("maximum", max_value)]);
         _ <- add_line sp value param 0 0;
         add_line sp param codebox 0 0);
  (* And finally save the patch *)
  save patcher.

(** [item[key]] returns. *)
Definition has_key (item : json) (key : string) : bool :=
  match getitem item key with
  | Val _ => true
  | _ => false
  end.

(** [item] has the keys the loop of [create_rnbo_patch] reads of it:
    "shortname" and "type" and, unless the type is "button" or
    "checkbox", "min", "max" and "init". *)
Definition usable (item : json) : bool :=
  has_key item "shortname" &&
  match getitem item "type" with
  | Val item_type =>
      in_strs item_type ["button"; "checkbox"] ||
      (has_key item "min" && has_key item "max" && has_key item "init")
  | _ => false
  end.

End Py2max.

(** *** Lists to try the builder on *)

(** A slider without "min", as a descriptor: the fields of a dict. *)
Definition gain_without_min : list (string * json) :=
  [("shortname", JStr "gain"); ("type", JStr "hslider");
   ("init", JNum (Int 0)); ("max", JNum (Int 1)); ("step", JNum (Int 1))].

End Untyped.

(** * Properties *)

(** ** Outcomes and effects *)

Module PyFacts.
Import Py.

Lemma bind_val {A B} (m : outcome A) (k : A -> outcome B) b :
  bind m k = Val b -> exists a, m = Val a /\ k a = Val b.
Proof. destruct m; simpl; intros; try discriminate. eauto. Qed.

Lemma for_each_ext {A S} (xs : list A) (f g : S -> A -> outcome S) s :
  (forall x, In x xs -> forall s, f s x = g s x) ->
  for_each xs s f = for_each xs s g.
Proof.
  revert s. induction xs as [|x xs IH]; intros s H; simpl; [done|].
  rewrite (H x) by (by left).
  destruct (g s x); simpl; try done.
  apply IH. intros y Hy. apply H. by right.
Qed.

Lemma for_each_acc {A B} (xs : list A) (body : list B -> A -> outcome (list B)) acc :
  (forall s x, body s x = (r <- body [] x; Val (s ++ r))) ->
  for_each xs acc body = (r <- for_each xs [] body; Val (acc ++ r)).
Proof.
  intros Hb. revert acc. induction xs as [|x xs IH]; intros acc; simpl.
  - by rewrite app_nil_r.
  - rewrite (Hb acc x). destruct (body [] x) as [r| |]; simpl; try done.
    rewrite (IH (acc ++ r)), (IH r).
    destruct (for_each xs [] body); simpl; try done.
    by rewrite app_assoc.
Qed.

Lemma bind_ret_r {A} (m : outcome A) : bind m Val = m.
Proof. by destruct m. Qed.

Lemma for_each_fuel {A S} (xs : list A) (body : S -> A -> outcome S) s :
  (forall x, In x xs -> forall s, body s x <> OutOfFuel) ->
  for_each xs s body <> OutOfFuel.
Proof.
  revert s. induction xs as [|x xs IH]; intros s Hb; cbn; [done|].
  pose proof (Hb x (or_introl eq_refl) s) as Hx.
  destruct (body s x); cbn; try done.
  apply IH. intros y Hy. apply Hb. by right.
Qed.

Lemma pbind_ok {S A B} (m : prog S A) (k : A -> prog S B) s a s' :
  m s = (Val a, s') -> pbind m k s = k a s'.
Proof. unfold pbind. by intros ->. Qed.

Lemma pbind_raise {S A B} (m : prog S A) (k : A -> prog S B) s e s' :
  m s = (Raise e, s') -> pbind m k s = (Raise e, s').
Proof. unfold pbind. by intros ->. Qed.

Lemma pbind_out_of_fuel {S A B} (m : prog S A) (k : A -> prog S B) s s' :
  m s = (OutOfFuel, s') -> pbind m k s = (OutOfFuel, s').
Proof. unfold pbind. by intros ->. Qed.

Lemma for_each_raises {A S} (P : exn -> Prop) (xs : list A)
    (body : S -> A -> outcome S) s e :
  (forall x, In x xs -> forall s e, body s x = Raise e -> P e) ->
  for_each xs s body = Raise e -> P e.
Proof.
  revert s. induction xs as [|x xs IH]; intros s Hb; cbn; [done|].
  destruct (body s x) as [s'|e'|] eqn:Hx; cbn; try done.
  - apply IH. intros y Hy. apply Hb. by right.
  - intros [= <-]. eapply Hb; [by left|done].
Qed.

Lemma pbind_lift {S A B} (o : outcome A) (k : A -> prog S B) s :
  pbind (lift o) k s =
    match o with
    | Val a => k a s
    | Raise e => (Raise e, s)
    | OutOfFuel => (OutOfFuel, s)
    end.
Proof. unfold pbind, lift. by destruct o. Qed.

Lemma pbind_ext {S A B} (m : prog S A) (k k' : A -> prog S B) s :
  (forall a s', k a s' = k' a s') -> pbind m k s = pbind m k' s.
Proof. intros Hk. unfold pbind. by destruct (m s) as [[a| |] s']. Qed.

Lemma pbind_ext_l {S A B} (m m' : prog S A) (k : A -> prog S B) s :
  m s = m' s -> pbind m k s = pbind m' k s.
Proof. unfold pbind. by intros ->. Qed.

Lemma pfor_ext {S A} (xs : list A) (body body' : A -> prog S unit) s :
  (forall x s', body x s' = body' x s') -> pfor xs body s = pfor xs body' s.
Proof.
  intros Hb. revert s. induction xs as [|x xs IH]; intros s; cbn [pfor]; [done|].
  unfold pbind. rewrite Hb. by destruct (body' x s) as [[a| |] s'].
Qed.

Lemma pfor_map {S A B} (g : A -> B) (xs : list A) (body : B -> prog S unit) s :
  pfor (map g xs) body s = pfor xs (fun x => body (g x)) s.
Proof.
  revert s. induction xs as [|x xs IH]; intros s; cbn [pfor map]; [done|].
  by apply pbind_ext.
Qed.

End PyFacts.

(** ** The extractor *)

Module InfoFacts.
Import Py Info PyFacts.

Lemma depth_elem e elems : In e elems -> depth e < depth (JArr elems).
Proof.
  simpl. induction elems as [|x xs IH]; simpl; [done|].
  intros [->|H]; [lia|]. specialize (IH H). lia.
Qed.

Lemma depth_lookup key items v :
  lookup_key key items = Some v -> depth v < depth (JObj items).
Proof.
  simpl. induction items as [|[k w] xs IH]; simpl; [done|].
  destruct (String.eqb k key).
  - intros [= ->]. lia.
  - intros H. specialize (IH H). lia.
Qed.

Lemma getitem_depth item key v :
  getitem item key = Val v -> depth v < depth item.
Proof.
  destruct item; simpl; try done.
  destruct (lookup_key key items) eqn:E; [|done].
  intros [= <-]. by apply (depth_lookup key).
Qed.

Lemma iter_getitem_depth v items x key w :
  iter v = Val items -> In x items -> getitem x key = Val w ->
  S (depth w) < depth v.
Proof.
  destruct v; simpl; try done; intros [= <-] Hx Hw.
  - apply in_map_iff in Hx as (c & <- & _). done.
  - apply depth_elem in Hx. apply getitem_depth in Hw. simpl in Hx. lia.
  - apply in_map_iff in Hx as (c & <- & _). done.
Qed.

Lemma extract_from_ui_fuel n m v :
  depth v < n -> depth v < m -> extract_from_ui n v = extract_from_ui m v.
Proof.
  revert m v. induction n as [|n IH]; intros [|m] v Hn Hm; try lia.
  simpl. destruct (iter v) as [items| |] eqn:Hit; simpl; try done.
  apply for_each_ext. intros x Hx s.
  destruct (own_info x s); simpl; try done.
  destruct (contains x "items") as [[]| |]; simpl; try done.
  destruct (getitem x "items") as [w| |] eqn:Hw; simpl; try done.
  pose proof (iter_getitem_depth _ _ _ _ _ Hit Hx Hw).
  rewrite (IH m w) by lia. done.
Qed.

Lemma own_info_dict fields info_list :
  own_info (JObj fields) info_list = Val (info_list ++ control_of fields).
Proof.
  unfold own_info, control_of, field, get, contains, getitem, bind.
  destruct (in_strs _ _); [done|].
  destruct (lookup_key "min" fields); [|by rewrite app_nil_r].
  destruct (lookup_key "max" fields); [|by rewrite app_nil_r].
  destruct (lookup_key "step" fields); [|by rewrite app_nil_r].
  done.
Qed.

Lemma own_info_not_dict item info_list :
  (forall fields, item <> JObj fields) ->
  own_info item info_list = Raise AttributeError.
Proof. destruct item; try done. intros H. by destruct (H items). Qed.

Lemma own_info_val item info_list l :
  own_info item info_list = Val l ->
  exists fields, item = JObj fields /\ l = info_list ++ control_of fields.
Proof.
  destruct item; try done. rewrite own_info_dict. intros [= <-]. eauto.
Qed.

Lemma extract_from_ui_S_cons n item rest :
  extract_from_ui (S n) (JArr (item :: rest)) =
    (own <- own_info item [];
     has_items <- contains item "items";
     sub <- (if has_items then sub_items <- getitem item "items"; extract_from_ui n sub_items
             else Val []);
     tl <- extract_from_ui (S n) (JArr rest);
     Val (own ++ sub ++ tl)).
Proof.
  cbn [extract_from_ui iter bind].
  match goal with |- for_each _ _ ?b = _ => set (body := b) end.
  assert (Hb : forall s x, body s x = (r <- body [] x; Val (s ++ r))).
  { intros s x. unfold body.
    destruct x; try done. rewrite !own_info_dict. simpl.
    destruct (bool_decide _); simpl; [|done].
    destruct (lookup_key "items" items); simpl; [|done].
    destruct (extract_from_ui n j); simpl; try done.
    by rewrite app_assoc. }
  cbn [for_each]. unfold body at 1.
  destruct (own_info item []) as [own| |] eqn:Hown; simpl; try done.
  destruct (contains item "items") as [[]| |]; simpl; try done.
  - destruct (getitem item "items") as [sub_items| |]; simpl; try done.
    destruct (extract_from_ui n sub_items) as [sub| |]; simpl; try done.
    rewrite for_each_acc by done.
    destruct (for_each rest [] body); simpl; try done.
    by rewrite app_assoc.
  - rewrite for_each_acc by done.
    destruct (for_each rest [] body); simpl; try done.
Qed.

Lemma extract_from_ui_nil n : extract_from_ui (S n) (JArr []) = Val [].
Proof. done. Qed.

Lemma extract_from_ui_cons fuel fields rest :
  depth (JArr (JObj fields :: rest)) < fuel ->
  extract_from_ui fuel (JArr (JObj fields :: rest)) =
    (sub <- match lookup_key "items" fields with
            | Some sub_items => extract_from_ui fuel sub_items
            | None => Val []
            end;
     tl <- extract_from_ui fuel (JArr rest);
     Val (control_of fields ++ sub ++ tl)).
Proof.
  destruct fuel as [|n]; [lia|]. intros Hd.
  rewrite extract_from_ui_S_cons, own_info_dict. cbn [bind contains getitem app].
  destruct (lookup_key "items" fields) as [sub_items|] eqn:Hs.
  - rewrite bool_decide_eq_true_2 by eauto. cbn [bind].
    apply depth_lookup in Hs.
    rewrite (extract_from_ui_fuel n (S n) sub_items); [done| |]; simpl in *; lia.
  - rewrite bool_decide_eq_false_2; [done|]. by intros [? ?].
Qed.

Lemma preorder_extract items l :
  preorder items l ->
  forall fuel, depth (JArr items) < fuel -> extract_from_ui fuel (JArr items) = Val l.
Proof.
  induction 1 as [|fields rest l Hno _ IH|fields children rest lc l Hsub _ IHc _ IH];
    intros fuel Hd.
  - destruct fuel; [lia|]. done.
  - rewrite extract_from_ui_cons, Hno by done. simpl bind.
    rewrite IH; [done|]. simpl in *; lia.
  - rewrite extract_from_ui_cons, Hsub by done.
    pose proof (depth_lookup _ _ _ Hsub).
    rewrite IHc by (simpl in *; lia). simpl bind.
    rewrite IH; [done|]. simpl in *; lia.
Qed.

Lemma extract_items_info_dict fields ui_section :
  lookup_key "ui" fields = Some ui_section ->
  extract_items_info (JObj fields) = extract_from_ui (S (depth ui_section)) ui_section.
Proof.
  intros H. unfold extract_items_info. simpl.
  rewrite H, bool_decide_eq_true_2 by eauto. done.
Qed.

(** C1: on a manifest whose "ui" is a tree of elements, the descriptors
    come out in depth-first order: the descriptor of an element, then
    those of its nested "items", then those of the siblings after it. *)
Theorem extract_items_info_depth_first fields items l :
  lookup_key "ui" fields = Some (JArr items) ->
  preorder items l ->
  extract_items_info (JObj fields) = Val l.
Proof.
  intros Hui Hpre. rewrite (extract_items_info_dict _ _ Hui).
  apply preorder_extract; [done|lia].
Qed.
Lemma extract_from_ui_iter n v items :
  iter v = Val items ->
  extract_from_ui (S n) v = extract_from_ui (S n) (JArr items).
Proof. intros Hit. simpl. by rewrite Hit. Qed.

(** What a successful run on a list says about each of its elements. *)
Lemma extract_from_ui_elem n items l item :
  extract_from_ui (S n) (JArr items) = Val l ->
  In item items ->
  exists fields sub pre post,
    item = JObj fields /\
    l = pre ++ control_of fields ++ sub ++ post /\
    match lookup_key "items" fields with
    | Some sub_items => extract_from_ui n sub_items = Val sub
    | None => sub = []
    end.
Proof.
  revert l. induction items as [|x rest IH]; intros l Hrun Hin; [done|].
  rewrite extract_from_ui_S_cons in Hrun.
  apply bind_val in Hrun as (own & Hown & Hrun).
  apply own_info_val in Hown as (fields & -> & ->).
  apply bind_val in Hrun as (has_items & Hhas & Hrun).
  apply bind_val in Hrun as (sub & Hsub & Hrun).
  apply bind_val in Hrun as (tl & Htl & [= <-]).
  destruct Hin as [<-|Hin].
  - exists fields, sub, [], tl. split_and!; [done..|].
    simpl in Hhas, Hsub. injection Hhas as <-.
    destruct (lookup_key "items" fields) as [s|].
    + by rewrite bool_decide_eq_true_2 in Hsub by eauto.
    + rewrite bool_decide_eq_false_2 in Hsub by (by intros [? ?]). congruence.
  - destruct (IH tl Htl Hin) as (f & s & pre & post & -> & -> & Hs).
    exists f, s, (control_of fields ++ sub ++ pre), post.
    split_and!; [done| |done]. simpl. by rewrite <- !app_assoc.
Qed.

Lemma ui_item_emitted ui item :
  ui_item ui item ->
  forall fuel l, extract_from_ui fuel ui = Val l ->
  exists fields pre post, item = JObj fields /\ l = pre ++ control_of fields ++ post.
Proof.
  induction 1 as [items item Hin|items fields sub item Hin Hsub _ IH];
    intros [|n] l Hrun; try done.
  - destruct (extract_from_ui_elem _ _ _ _ Hrun Hin)
      as (fields & s & pre & post & -> & -> & _).
    by exists fields, pre, (s ++ post).
  - destruct (extract_from_ui_elem _ _ _ _ Hrun Hin)
      as (f & s & pre & post & [= <-] & -> & Hs).
    rewrite Hsub in Hs.
    destruct (IH _ _ Hs) as (f' & pre' & post' & -> & ->).
    exists f', (pre ++ control_of fields ++ pre'), (post' ++ post).
    split; [done|]. by rewrite <- !app_assoc.
Qed.

Lemma ui_item_cons x items item :
  ui_item (JArr items) item -> ui_item (JArr (x :: items)) item.
Proof.
  inversion 1; subst.
  - apply ui_item_here. by right.
  - eapply ui_item_below; [by right|done..].
Qed.

Lemma descriptor_origin fuel ui l d :
  extract_from_ui fuel ui = Val l ->
  In d l ->
  exists fields, ui_item ui (JObj fields) /\ In d (control_of fields).
Proof.
  revert ui l. induction fuel as [|n IH]; intros ui l Hrun Hd; [done|].
  assert (Harr : forall items l, extract_from_ui (S n) (JArr items) = Val l ->
            In d l ->
            exists fields, ui_item (JArr items) (JObj fields) /\ In d (control_of fields)).
  { clear ui l Hrun Hd. induction items as [|x rest IHr]; intros l Hrun Hd.
    - injection Hrun as <-. done.
    - rewrite extract_from_ui_S_cons in Hrun.
      apply bind_val in Hrun as (own & Hown & Hrun).
      apply own_info_val in Hown as (fields & -> & ->).
      apply bind_val in Hrun as (has_items & Hhas & Hrun).
      apply bind_val in Hrun as (sub & Hsub & Hrun).
      apply bind_val in Hrun as (tl & Htl & [= <-]).
      simpl in Hd. rewrite !in_app_iff in Hd. destruct Hd as [Hd|[Hd|Hd]].
      + exists fields. split; [|done]. apply ui_item_here. by left.
      + simpl in Hhas, Hsub. injection Hhas as <-.
        destruct (lookup_key "items" fields) as [s|] eqn:Hs.
        * rewrite bool_decide_eq_true_2 in Hsub by eauto.
          destruct (IH _ _ Hsub Hd) as (f & Hf & Hin).
          exists f. split; [|done].
          eapply ui_item_below; [by left|done..].
        * rewrite bool_decide_eq_false_2 in Hsub by (by intros [? ?]).
          injection Hsub as <-. done.
      + destruct (IHr _ Htl Hd) as (f & Hf & Hin).
        exists f. split; [|done]. by apply ui_item_cons. }
  destruct ui; try done.
  - (* a string: its characters are no dicts *)
    destruct s as [|c s]; [by injection Hrun as <-|done].
  - eauto.
  - (* a dict: its keys are no dicts *)
    destruct items as [|[k v] items]; [by injection Hrun as <-|done].
Qed.

Lemma extract_items_info_ui json_data ui :
  getitem json_data "ui" = Val ui ->
  extract_items_info json_data = extract_from_ui (S (depth ui)) ui.
Proof.
  destruct json_data; try done. simpl.
  destruct (lookup_key "ui" items) eqn:Hui; [|done]. intros [= ->].
  by apply extract_items_info_dict.
Qed.

Lemma getitem_ui_val json_data l :
  extract_items_info json_data = Val l ->
  l <> [] ->
  exists ui, getitem json_data "ui" = Val ui.
Proof.
  unfold extract_items_info. intros Hrun Hl.
  apply bind_val in Hrun as ([] & _ & Hrun).
  - apply bind_val in Hrun as (ui & Hui & Hrun). by exists ui.
  - by injection Hrun as <-.
Qed.

(** C2: an element of the "ui" tree whose type is "button" or
    "checkbox" gives a descriptor with init 0, min 0, max 1 and step 1,
    whatever other fields it has; an element taken as a range control
    gives a descriptor with its own "min", "max" and "step". *)
Theorem extract_items_info_ranges json_data ui l fields :
  extract_items_info json_data = Val l ->
  getitem json_data "ui" = Val ui ->
  ui_item ui (JObj fields) ->
  let shortname := field fields "shortname" (JStr "") in
  let item_type := field fields "type" (JStr "") in
  (item_type = JStr "button" \/ item_type = JStr "checkbox" ->
   In (Descriptor shortname item_type
         (JNum (Int 0)) (JNum (Int 0)) (JNum (Int 1)) (JNum (Int 1))) l) /\
  (forall min_value max_value step_value,
     in_strs item_type ["button"; "checkbox"] = false ->
     lookup_key "min" fields = Some min_value ->
     lookup_key "max" fields = Some max_value ->
     lookup_key "step" fields = Some step_value ->
     In (Descriptor shortname item_type (field fields "init" (JNum (Int 0)))
           min_value max_value step_value) l).
Proof.
  intros Hrun Hui Hitem shortname item_type.
  rewrite (extract_items_info_ui _ _ Hui) in Hrun.
  destruct (ui_item_emitted _ _ Hitem _ _ Hrun) as (f & pre & post & [= <-] & ->).
  split.
  - intros Hty. rewrite !in_app_iff. right; left.
    unfold control_of. fold shortname item_type.
    destruct Hty as [-> | ->]; simpl; by left.
  - intros a b c Hty Ha Hb Hc. rewrite !in_app_iff. right; left.
    unfold control_of. fold shortname item_type.
    rewrite Hty, Ha, Hb, Hc. by left.
Qed.

(** C5, as the code has it: a missing "shortname" or "type" gives "", a
    missing "init" on a range control gives 0, and an element that is no
    button or checkbox and lacks "min", "max" or "step" adds nothing and
    raises nothing. *)
Theorem own_info_missing_keys fields info_list :
  exists own,
    own_info (JObj fields) info_list = Val (info_list ++ own) /\
    (lookup_key "shortname" fields = None ->
     forall d, In d own -> shortname d = JStr "") /\
    (lookup_key "type" fields = None ->
     forall d, In d own -> type d = JStr "") /\
    (forall min_value max_value step_value,
       lookup_key "init" fields = None ->
       in_strs (field fields "type" (JStr "")) ["button"; "checkbox"] = false ->
       lookup_key "min" fields = Some min_value ->
       lookup_key "max" fields = Some max_value ->
       lookup_key "step" fields = Some step_value ->
       own = [Descriptor (field fields "shortname" (JStr ""))
                (field fields "type" (JStr "")) (JNum (Int 0))
                min_value max_value step_value]) /\
    (in_strs (field fields "type" (JStr "")) ["button"; "checkbox"] = false ->
     lookup_key "min" fields = None \/ lookup_key "max" fields = None \/
     lookup_key "step" fields = None ->
     own = []).
Proof.
  exists (control_of fields). split; [apply own_info_dict|].
  unfold control_of, field.
  destruct (in_strs _ _) eqn:Hty;
    [|destruct (lookup_key "min" fields) as [a|],
               (lookup_key "max" fields) as [b|],
               (lookup_key "step" fields) as [c|]];
    split_and!; try done;
    try (by intros Hno d [<-|[]]; simpl; rewrite Hno);
    try (by intros a' b' c' Hno _ [= <-] [= <-] [= <-]; rewrite Hno);
    try (by intros _ [?|[?|?]]).
Qed.

(** C5, as stated, fails: a slider without "min" raises no lookup
    failure, it is passed over. *)
Lemma missing_min_raises_nothing :
  extract_items_info slider_without_min = Val [] /\
  forall e, extract_items_info slider_without_min <> Raise e.
Proof. split; [reflexivity|discriminate]. Qed.

(** C6, as stated, fails: the type of an element with "min", "max" and
    "step" is copied whatever it is. *)
Lemma type_outside_control_kinds :
  exists d, extract_items_info knob_manifest = Val [d] /\
            forall k, In k control_kinds -> type d <> JStr k.
Proof.
  eexists. split; [reflexivity|].
  intros k Hk. simpl in Hk. simpl. intros [= <-].
  repeat (destruct Hk as [Hk|Hk]; [discriminate|]). done.
Qed.

Lemma control_of_type fields d :
  In d (control_of fields) ->
  type d = JStr "button" \/ type d = JStr "checkbox" \/
  (is_Some (lookup_key "min" fields) /\ is_Some (lookup_key "max" fields) /\
   is_Some (lookup_key "step" fields) /\ type d = field fields "type" (JStr "")).
Proof.
  unfold control_of.
  destruct (in_strs _ _) eqn:Hty.
  - intros [<-|[]]. simpl.
    unfold in_strs in Hty. simpl in Hty.
    destruct (field fields "type" (JStr "")) as [| | |s| |]; try done. simpl in Hty.
    rewrite orb_false_r in Hty.
    apply orb_true_iff in Hty as [Hty|Hty]; apply String.eqb_eq in Hty; subst s; auto.
  - destruct (lookup_key "min" fields), (lookup_key "max" fields),
      (lookup_key "step" fields); try done.
    intros [<-|[]]. right; right. eauto.
Qed.

(** C6, as the code has it: the type of a descriptor is "button",
    "checkbox", or the "type" (by default "") of an element of the tree
    that has "min", "max" and "step". *)
Theorem descriptor_type_origin json_data l d :
  extract_items_info json_data = Val l ->
  In d l ->
  type d = JStr "button" \/ type d = JStr "checkbox" \/
  exists ui fields,
    getitem json_data "ui" = Val ui /\ ui_item ui (JObj fields) /\
    is_Some (lookup_key "min" fields) /\ is_Some (lookup_key "max" fields) /\
    is_Some (lookup_key "step" fields) /\
    type d = field fields "type" (JStr "").
Proof.
  intros Hrun Hd.
  destruct (getitem_ui_val _ _ Hrun) as (ui & Hui); [by destruct l|].
  rewrite (extract_items_info_ui _ _ Hui) in Hrun.
  destruct (descriptor_origin _ _ _ _ Hrun Hd) as (fields & Hitem & Hin).
  destruct (control_of_type _ _ Hin) as [?|[?|(?&?&?&?)]]; [by left|by right; left|].
  right; right. exists ui, fields. split_and!; done.
Qed.

Lemma extract_items_info_no_ui fields :
  lookup_key "ui" fields = None -> extract_items_info (JObj fields) = Val [].
Proof.
  intros Hno. unfold extract_items_info. simpl.
  rewrite Hno, bool_decide_eq_false_2; [done|]. by intros [? ?].
Qed.

Lemma extract_from_ui_app n xs ys :
  extract_from_ui (S n) (JArr (xs ++ ys)) =
    (a <- extract_from_ui (S n) (JArr xs);
     b <- extract_from_ui (S n) (JArr ys);
     Val (a ++ b)).
Proof.
  induction xs as [|x xs IH].
  - rewrite extract_from_ui_nil. cbn [app bind]. by rewrite bind_ret_r.
  - rewrite <- app_comm_cons, !extract_from_ui_S_cons, IH.
    destruct (own_info x []) as [own| |]; cbn [bind]; try done.
    destruct (contains x "items") as [has| |]; cbn [bind]; try done.
    destruct (if has then _ else _) as [sub| |]; cbn [bind]; try done.
    destruct (extract_from_ui (S n) (JArr xs)) as [a| |]; cbn [bind]; try done.
    destruct (extract_from_ui (S n) (JArr ys)) as [b| |]; cbn [bind]; try done.
    by rewrite <- !app_assoc.
Qed.

Lemma depth_arr_app xs ys :
  depth (JArr (xs ++ ys)) = Nat.max (depth (JArr xs)) (depth (JArr ys)).
Proof.
  simpl. f_equal. induction xs as [|x xs IH]; simpl; [done|]. rewrite IH. lia.
Qed.

Lemma extract_items_info_only_ui ui :
  extract_items_info (JObj [("ui", ui)]) = extract_from_ui (S (depth ui)) ui.
Proof. by apply extract_items_info_dict. Qed.

(** C10: an element that is a control and has "items" gives its own
    descriptor and, right after it, the descriptors of what is below
    it; those of the elements before and after it surround the two. *)
Theorem control_with_items_recurses pre fields sub post d lpre lsub lpost :
  own_info (JObj fields) [] = Val [d] ->
  lookup_key "items" fields = Some sub ->
  extract_items_info (JObj [("ui", JArr pre)]) = Val lpre ->
  extract_items_info (JObj [("ui", sub)]) = Val lsub ->
  extract_items_info (JObj [("ui", JArr post)]) = Val lpost ->
  extract_items_info (JObj [("ui", JArr (pre ++ JObj fields :: post))]) =
    Val (lpre ++ d :: lsub ++ lpost).
Proof.
  intros Hown Hsub Hpre Hs Hpost.
  rewrite extract_items_info_only_ui in *.
  rewrite own_info_dict in Hown. injection Hown as Hown.
  pose proof (depth_lookup _ _ _ Hsub) as Hd.
  rewrite extract_from_ui_app.
  assert (Hcons : depth (JArr (JObj fields :: post)) =
                  S (Nat.max (depth (JObj fields)) (Nat.pred (depth (JArr post))))) by done.
  pose proof (depth_arr_app pre (JObj fields :: post)) as Happ.
  rewrite (extract_from_ui_fuel _ (S (depth (JArr pre)))), Hpre by lia.
  cbn [bind].
  rewrite extract_from_ui_cons, Hsub by lia.
  rewrite (extract_from_ui_fuel _ (S (depth sub))), Hs by lia.
  cbn [bind].
  rewrite (extract_from_ui_fuel _ (S (depth (JArr post)))), Hpost by (simpl in *; lia).
  cbn [bind]. by rewrite Hown.
Qed.

Lemma own_info_fuel item info_list : own_info item info_list <> OutOfFuel.
Proof.
  destruct item; try done. by rewrite own_info_dict.
Qed.

Lemma contains_fuel c key : contains c key <> OutOfFuel.
Proof. by destruct c. Qed.

Lemma getitem_fuel c key : getitem c key <> OutOfFuel.
Proof. destruct c; try done. cbn. by destruct (lookup_key key items). Qed.

(** With more fuel than the document is deep, the extractor returns or
    raises: the fuel is not used up. *)
Lemma extract_from_ui_total fuel v :
  depth v < fuel -> extract_from_ui fuel v <> OutOfFuel.
Proof.
  revert v. induction fuel as [|n IH]; intros v Hd; [lia|].
  cbn [extract_from_ui].
  destruct (iter v) as [items| |] eqn:Hit; cbn [bind]; try done;
    [|by destruct v].
  apply for_each_fuel. intros x Hx s.
  pose proof (own_info_fuel x s) as Hown.
  destruct (own_info x s); cbn [bind]; try done.
  destruct (contains x "items") as [[]| |] eqn:Hc; cbn [bind]; try done.
  - destruct (getitem x "items") as [w| |] eqn:Hw; cbn [bind]; try done.
    + pose proof (iter_getitem_depth _ _ _ _ _ Hit Hx Hw).
      specialize (IH w ltac:(lia)).
      by destruct (extract_from_ui n w).
    + by apply getitem_fuel in Hw.
  - by apply contains_fuel in Hc.
Qed.

Lemma extract_items_info_total json_data : extract_items_info json_data <> OutOfFuel.
Proof.
  unfold extract_items_info.
  destruct (contains json_data "ui") as [[]| |] eqn:Hc; cbn [bind]; try done.
  - destruct (getitem json_data "ui") as [ui| |] eqn:Hui; cbn [bind]; try done.
    + apply extract_from_ui_total. lia.
    + by apply getitem_fuel in Hui.
  - by apply contains_fuel in Hc.
Qed.

(** C1 on [osc_manifest]: the slider and the button below the group come
    out in the order they are listed. *)
Lemma extract_items_info_depth_first_witness :
  extract_items_info osc_manifest = Val [freq_descriptor; gate_descriptor].
Proof.
  apply (extract_items_info_depth_first
           [("name", JStr "osc"); ("inputs", JNum (Int 0));
            ("outputs", JNum (Int 2)); ("ui", JArr [osc_group])]
           [osc_group] [freq_descriptor; gate_descriptor]).
  - reflexivity.
  - apply (preorder_node
             [("type", JStr "vgroup"); ("label", JStr "osc");
              ("items", JArr [freq_slider; gate_button])]
             [freq_slider; gate_button] [] [freq_descriptor; gate_descriptor] []).
    + reflexivity.
    + apply (preorder_leaf
               [("type", JStr "hslider"); ("shortname", JStr "freq");
                ("init", JNum (Int 440)); ("min", JNum (Int 20));
                ("max", JNum (Int 20000));
                ("step", JNum (Float 4602678819172646912))]
               [gate_button] [gate_descriptor]).
      * reflexivity.
      * apply (preorder_leaf
                 [("type", JStr "button"); ("shortname", JStr "gate");
                  ("min", JNum (Int 5))] [] []).
        -- reflexivity.
        -- apply preorder_nil.
    + apply preorder_nil.
Defined.

(** C2 on [osc_manifest]: the button gives 0, 0, 1, 1 although it has a
    "min" of 5, and the slider gives its own range. *)
Lemma extract_items_info_ranges_witness :
  exists l,
    extract_items_info osc_manifest = Val l /\
    In gate_descriptor l /\ In freq_descriptor l.
Proof.
  assert (Hrun : extract_items_info osc_manifest =
                 Val [freq_descriptor; gate_descriptor]) by reflexivity.
  assert (Hui : getitem osc_manifest "ui" = Val (JArr [osc_group])) by reflexivity.
  assert (Hgroup : In osc_group [osc_group]) by (left; reflexivity).
  assert (Hgate : ui_item (JArr [osc_group]) gate_button).
  { apply (ui_item_below [osc_group] _ (JArr [freq_slider; gate_button]) _ Hgroup).
    - reflexivity.
    - apply ui_item_here. right; left; reflexivity. }
  assert (Hfreq : ui_item (JArr [osc_group]) freq_slider).
  { apply (ui_item_below [osc_group] _ (JArr [freq_slider; gate_button]) _ Hgroup).
    - reflexivity.
    - apply ui_item_here. left; reflexivity. }
  exists [freq_descriptor; gate_descriptor]. split; [exact Hrun|]. split.
  - exact (proj1 (extract_items_info_ranges osc_manifest _ _ _ Hrun Hui Hgate)
             (or_introl eq_refl)).
  - exact (proj2 (extract_items_info_ranges osc_manifest _ _ _ Hrun Hui Hfreq)
             _ _ _ eq_refl eq_refl eq_refl eq_refl).
Defined.

(** C6 on [knob_manifest]: the type "knob" comes from the element. *)
Lemma descriptor_type_origin_witness :
  let d := Descriptor (JStr "gain") (JStr "knob") (JNum (Int 0)) (JNum (Int 0))
             (JNum (Int 1)) (JNum (Int 1)) in
  type d = JStr "button" \/ type d = JStr "checkbox" \/
  exists ui fields,
    getitem knob_manifest "ui" = Val ui /\ ui_item ui (JObj fields) /\
    is_Some (lookup_key "min" fields) /\ is_Some (lookup_key "max" fields) /\
    is_Some (lookup_key "step" fields) /\
    type d = field fields "type" (JStr "").
Proof.
  intros d.
  apply (descriptor_type_origin knob_manifest [d] d).
  - reflexivity.
  - left; reflexivity.
Defined.

(** C10 on a button with a slider below it, between a slider and a
    button: the button's descriptor, then the slider's. *)
Lemma control_with_items_recurses_witness :
  extract_items_info
    (JObj [("ui", JArr ([freq_slider] ++ JObj gate_fields :: [gate_button]))]) =
  Val ([freq_descriptor] ++ gate_descriptor :: [freq_descriptor] ++ [gate_descriptor]).
Proof.
  apply (control_with_items_recurses [freq_slider] gate_fields (JArr [freq_slider])
           [gate_button] gate_descriptor [freq_descriptor] [freq_descriptor]
           [gate_descriptor]); reflexivity.
Defined.

(** *** Which manifests the extractor accepts *)

Lemma extract_from_ui_dict_cons n fields rest :
  extract_from_ui (S n) (JArr (JObj fields :: rest)) =
    (sub <- match lookup_key "items" fields with
            | Some sub_items => extract_from_ui n sub_items
            | None => Val []
            end;
     tl <- extract_from_ui (S n) (JArr rest);
     Val (control_of fields ++ sub ++ tl)).
Proof.
  rewrite extract_from_ui_S_cons, own_info_dict. cbn [bind app contains getitem].
  destruct (lookup_key "items" fields) as [s|] eqn:Hl.
  - rewrite bool_decide_eq_true_2 by eauto. done.
  - rewrite bool_decide_eq_false_2; [done|]. by intros [? ?].
Qed.

Lemma extract_from_ui_other_cons n item rest :
  (forall fields, item <> JObj fields) ->
  extract_from_ui (S n) (JArr (item :: rest)) = Raise AttributeError.
Proof.
  intros Hno. rewrite extract_from_ui_S_cons, own_info_not_dict by done. done.
Qed.

Lemma ui_elems_returns n items :
  (forall sub, S (depth sub) < depth (JArr items) ->
     ui_tree sub -> exists l, extract_from_ui n sub = Val l) ->
  ui_elems items -> exists l, extract_from_ui (S n) (JArr items) = Val l.
Proof.
  intros IH Hel.
  induction Hel as [|fields rest Hno Hrest IHr|fields sub rest Hsub Ht Hrest IHr].
  - by exists [].
  - rewrite extract_from_ui_dict_cons, Hno. cbn [bind].
    destruct IHr as (tl & ->).
    { intros sub Hd. apply IH. simpl in *. lia. }
    cbn [bind]. eauto.
  - rewrite extract_from_ui_dict_cons, Hsub.
    destruct (IH sub) as (ls & ->); [|done|].
    { apply depth_lookup in Hsub. simpl in *. lia. }
    destruct IHr as (tl & ->).
    { intros s Hd. apply IH. simpl in *. lia. }
    cbn [bind]. eauto.
Qed.

Lemma returns_ui_elems n items l :
  (forall sub l, S (depth sub) < depth (JArr items) ->
     extract_from_ui n sub = Val l -> ui_tree sub) ->
  extract_from_ui (S n) (JArr items) = Val l -> ui_elems items.
Proof.
  revert l. induction items as [|x rest IHr]; intros l IH Hrun; [constructor|].
  destruct x as [|b|num|s|elems|fields];
    try (by rewrite extract_from_ui_other_cons in Hrun).
  rewrite extract_from_ui_dict_cons in Hrun.
  apply bind_val in Hrun as (sub & Hsub & Hrun).
  apply bind_val in Hrun as (tl & Htl & _).
  assert (Hrest : ui_elems rest).
  { apply (IHr tl); [|done]. intros s ls Hd. apply IH. simpl in *. lia. }
  destruct (lookup_key "items" fields) as [s|] eqn:Hs.
  - eapply ui_elems_node; [done| |done].
    apply (IH s sub); [|done]. apply depth_lookup in Hs. simpl in *. lia.
  - by apply ui_elems_leaf.
Qed.

Lemma iter_depth v items :
  iter v = Val items -> depth (JArr items) <= Nat.max 1 (depth v).
Proof.
  destruct v as [|b|num|s|elems|fields]; cbn; try done; intros [= <-]; [|lia|].
  - induction (list_ascii_of_string s) as [|c cs IH]; cbn in *; lia.
  - induction fields as [|[k w] its IH]; cbn in *; lia.
Qed.

Lemma extract_from_ui_returns_iff n v :
  depth v < n -> (exists l, extract_from_ui n v = Val l) <-> ui_tree v.
Proof.
  revert v. induction n as [|n IH]; intros v Hd; [lia|].
  split.
  - intros (l & Hrun).
    destruct (iter v) as [items| |] eqn:Hit;
      [|by cbn in Hrun; rewrite Hit in Hrun..].
    rewrite (extract_from_ui_iter _ _ _ Hit) in Hrun.
    pose proof (iter_depth _ _ Hit).
    apply (ui_tree_iter v items Hit).
    apply (returns_ui_elems n items l); [|done].
    intros sub ls Hs Hr. apply IH; [lia|eauto].
  - intros Ht. destruct Ht as [v items Hit Hel].
    rewrite (extract_from_ui_iter _ _ _ Hit).
    pose proof (iter_depth _ _ Hit).
    apply ui_elems_returns; [|done].
    intros sub Hs Ht. apply IH; [lia|done].
Qed.

(** X2: on a manifest with a "ui" section the extractor returns a list
    exactly when that section is a tree of elements: something a loop
    runs over, whose elements are all dicts, with the "items" of an
    element, where it has any, of that shape again.  On every other
    section it raises. *)
Theorem extract_items_info_returns_iff fields ui :
  lookup_key "ui" fields = Some ui ->
  (exists l, extract_items_info (JObj fields) = Val l) <-> ui_tree ui.
Proof.
  intros Hui. rewrite (extract_items_info_dict _ _ Hui).
  apply extract_from_ui_returns_iff. lia.
Qed.

Lemma extract_items_info_returns_tree fields :
  (exists l, extract_items_info (JObj fields) = Val l) <->
  (forall ui, lookup_key "ui" fields = Some ui -> ui_tree ui).
Proof.
  destruct (lookup_key "ui" fields) as [ui|] eqn:Hui.
  - rewrite (extract_items_info_dict _ _ Hui).
    rewrite extract_from_ui_returns_iff by lia.
    split; [by intros Ht ? [= <-]|auto].
  - rewrite (extract_items_info_no_ui _ Hui). split; [done|eauto].
Qed.

(** *** How the extractor fails *)

Lemma extract_from_ui_raises n v e :
  extract_from_ui n v = Raise e -> e = TypeError \/ e = AttributeError.
Proof.
  revert v e. induction n as [|n IH]; intros v e; [done|].
  cbn [extract_from_ui].
  destruct (iter v) as [items|e'|] eqn:Hit; cbn [bind]; try done.
  - apply (for_each_raises (fun e => e = TypeError \/ e = AttributeError)).
    intros x _ s e1.
    destruct x as [|b|num|t|elems|fields]; try (by intros [= <-]; right).
    rewrite own_info_dict. cbn [bind contains getitem].
    destruct (lookup_key "items" fields) as [sub|].
    + rewrite bool_decide_eq_true_2 by eauto. cbn [bind].
      destruct (extract_from_ui n sub) as [l|e2|] eqn:Hsub; cbn [bind]; try done.
      intros [= ->]. exact (IH _ _ Hsub).
    + rewrite bool_decide_eq_false_2; [done|]. by intros [? ?].
  - intros [= <-]. left. destruct v; cbn in Hit; congruence.
Qed.

Lemma extract_items_info_raises json_data e :
  extract_items_info json_data = Raise e -> e = TypeError \/ e = AttributeError.
Proof.
  intros Hrun. unfold extract_items_info in Hrun.
  destruct json_data as [|b|num|s|elems|fields]; try (by injection Hrun as <-; left).
  - cbn in Hrun. destruct (substring_of "ui" s); [|done]. injection Hrun as <-. by left.
  - cbn in Hrun. destruct (existsb _ elems); [|done]. injection Hrun as <-. by left.
  - cbn [contains getitem bind] in Hrun.
    destruct (lookup_key "ui" fields) as [ui|].
    + rewrite bool_decide_eq_true_2 in Hrun by eauto. by eapply extract_from_ui_raises.
    + rewrite bool_decide_eq_false_2 in Hrun; [done|]. by intros [? ?].
Qed.

(** X1: on every JSON value the extractor comes to an end, with a list
    or with a [TypeError] or an [AttributeError]; it never raises a
    [KeyError], as each of its subscripts is behind a test for the key. *)
Theorem extract_items_info_outcome json_data :
  match extract_items_info json_data with
  | Val _ => True
  | Raise e => e = TypeError \/ e = AttributeError
  | OutOfFuel => False
  end.
Proof.
  pose proof (extract_items_info_total json_data) as Htotal.
  pose proof (extract_items_info_raises json_data) as Hraises.
  destruct (extract_items_info json_data) as [l|e|]; [done|by apply Hraises|done].
Qed.

(** *** Groups *)

(** X4: an element that gives no descriptor of its own stands for the
    elements under its "items": put in its place in the list, they give
    the same result, the same exception included. *)
Theorem group_is_transparent pre fields members post :
  own_info (JObj fields) [] = Val [] ->
  lookup_key "items" fields = Some (JArr members) ->
  extract_items_info (JObj [("ui", JArr (pre ++ JObj fields :: post))]) =
  extract_items_info (JObj [("ui", JArr (pre ++ members ++ post))]).
Proof.
  intros Hown Hsub. rewrite own_info_dict in Hown. injection Hown as Hown.
  rewrite !extract_items_info_only_ui.
  pose proof (depth_lookup _ _ _ Hsub) as Hd.
  pose proof (depth_arr_app pre (JObj fields :: post)) as Hl.
  pose proof (depth_arr_app pre (members ++ post)) as Hr.
  pose proof (depth_arr_app members post) as Hm.
  assert (Hcons : depth (JArr (JObj fields :: post)) =
                  S (Nat.max (depth (JObj fields)) (Nat.pred (depth (JArr post))))) by done.
  set (n := depth (JArr (pre ++ JObj fields :: post))) in *.
  rewrite (extract_from_ui_fuel _ (S n) (JArr (pre ++ members ++ post))) by lia.
  rewrite !extract_from_ui_app.
  destruct (extract_from_ui (S n) (JArr pre)) as [a| |]; cbn [bind]; try done.
  rewrite extract_from_ui_dict_cons, Hsub, Hown.
  rewrite (extract_from_ui_fuel n (S n) (JArr members)) by lia.
  destruct (extract_from_ui (S n) (JArr members)) as [b| |]; cbn [bind]; done.
Qed.

(** *** Lists of elements *)

(** X17: the elements of a list are taken one after the other, each
    with what is below it: the result on two lists joined is the result
    on the first followed by the result on the second, and the first
    exception met is the one raised. *)
Theorem extract_items_info_app xs ys :
  extract_items_info (JObj [("ui", JArr (xs ++ ys))]) =
    (a <- extract_items_info (JObj [("ui", JArr xs)]);
     b <- extract_items_info (JObj [("ui", JArr ys)]);
     Val (a ++ b)).
Proof.
  rewrite !extract_items_info_only_ui.
  pose proof (depth_arr_app xs ys) as Hd.
  set (n := depth (JArr (xs ++ ys))) in *.
  rewrite extract_from_ui_app.
  rewrite (extract_from_ui_fuel (S n) (S (depth (JArr xs))) (JArr xs)) by lia.
  rewrite (extract_from_ui_fuel (S n) (S (depth (JArr ys))) (JArr ys)) by lia.
  done.
Qed.

(** *** What the extractor reads *)

Lemma lookup_strip_fields key fields :
  In key read_keys ->
  lookup_key key (strip_fields strip fields) = lookup_key key fields.
Proof.
  intros Hk. induction fields as [|[k v] rest IH]; [done|]. cbn [strip_fields lookup_key].
  destruct (String.eqb k "items") eqn:Hi.
  - apply String.eqb_eq in Hi as ->. cbn [lookup_key].
    destruct (String.eqb "items" key) eqn:E; [|done].
    apply String.eqb_eq in E as <-. cbn in Hk. intuition discriminate.
  - destruct (existsb (String.eqb k) read_keys) eqn:Hr; cbn [lookup_key].
    + by rewrite IH.
    + destruct (String.eqb k key) eqn:E; [|done].
      apply String.eqb_eq in E as ->.
      assert (existsb (String.eqb key) read_keys = true); [|congruence].
      apply existsb_exists. exists key. split; [done|apply String.eqb_refl].
Qed.

Lemma lookup_strip_items fields :
  lookup_key "items" (strip_fields strip fields) =
  option_map strip (lookup_key "items" fields).
Proof.
  induction fields as [|[k v] rest IH]; [done|]. cbn [strip_fields lookup_key].
  destruct (String.eqb k "items") eqn:Hi; cbn [lookup_key]; [by rewrite Hi|].
  destruct (existsb (String.eqb k) read_keys); cbn [lookup_key]; by rewrite ?Hi.
Qed.

Lemma control_of_strip fields :
  control_of (strip_fields strip fields) = control_of fields.
Proof.
  unfold control_of, field.
  rewrite !lookup_strip_fields; [done|cbn; tauto..].
Qed.

Lemma extract_from_ui_strip n v :
  extract_from_ui n (strip v) = extract_from_ui n v.
Proof.
  revert v. induction n as [|n IH]; intros v; [done|].
  destruct v as [|b|num|s|elems|fields]; try done.
  cbn [strip].
  induction elems as [|x rest IHr]; [done|]. cbn [map].
  destruct x as [|b|num|s|xs|fields];
    try (by rewrite !extract_from_ui_other_cons).
  cbn [strip_item].
  rewrite !extract_from_ui_dict_cons, control_of_strip, lookup_strip_items, IHr.
  destruct (lookup_key "items" fields) as [sub|]; cbn [option_map]; [|done].
  by rewrite IH.
Qed.

Lemma depth_strip_fields f fields :
  Forall (fun kv => depth (f (snd kv)) <= depth (snd kv)) fields ->
  depth (JObj (strip_fields f fields)) <= depth (JObj fields).
Proof.
  cbn [depth]. intros Hall. apply le_n_S.
  induction Hall as [|[k v] rest Hv _ IH]; [done|]. cbn [strip_fields].
  destruct (String.eqb k "items"); [|destruct (existsb (String.eqb k) read_keys)];
    cbn [fold_right snd] in *; lia.
Qed.

Lemma depth_strip n v : depth v <= n -> depth (strip v) <= depth v.
Proof.
  revert v. induction n as [|n IH]; intros v Hd.
  - destruct v; cbn [strip depth] in *; lia.
  - destruct v as [|b|num|s|elems|fields]; try done.
    cbn [strip depth] in *. apply le_n_S. apply le_S_n in Hd.
    induction elems as [|x rest IHr]; [done|]. cbn [map fold_right] in *.
    assert (depth (strip_item strip x) <= depth x); [|lia].
    destruct x as [|b|num|s|xs|fields]; try done.
    apply depth_strip_fields. apply List.Forall_forall. intros [k w] Hin.
    apply IH. cbn [snd].
    assert (depth w < depth (JObj fields)); [|lia].
    clear -Hin. cbn [depth]. induction fields as [|[k' w'] fs IHf]; [done|].
    cbn [fold_right snd]. destruct Hin as [[= -> ->]|Hin]; [lia|].
    specialize (IHf Hin). lia.
Qed.

(** X3: the result depends on the "ui" section only, and there on the
    fields "shortname", "type", "init", "min", "max", "step" and "items"
    of the elements: with every other field of every element taken
    away, and every other key of the manifest, the extractor returns or
    raises the same. *)
Theorem extract_items_info_strip fields ui :
  lookup_key "ui" fields = Some ui ->
  extract_items_info (JObj fields) = extract_items_info (JObj [("ui", strip ui)]).
Proof.
  intros Hui.
  rewrite (extract_items_info_dict _ _ Hui), extract_items_info_only_ui.
  rewrite <- (extract_from_ui_strip _ ui).
  pose proof (depth_strip _ ui (le_n _)).
  apply extract_from_ui_fuel; lia.
Qed.

(** X2 on [osc_manifest]. *)
Lemma extract_items_info_returns_iff_witness :
  (exists l, extract_items_info osc_manifest = Val l) <-> ui_tree (JArr [osc_group]).
Proof.
  exact (extract_items_info_returns_iff
           [("name", JStr "osc"); ("inputs", JNum (Int 0));
            ("outputs", JNum (Int 2)); ("ui", JArr [osc_group])]
           (JArr [osc_group]) eq_refl).
Defined.

(** X4 on [osc_group] between a button and a slider: the group has the
    type "vgroup" and no range. *)
Lemma group_is_transparent_witness :
  extract_items_info
    (JObj [("ui", JArr ([gate_button] ++ osc_group :: [freq_slider]))]) =
  extract_items_info
    (JObj [("ui", JArr ([gate_button] ++ [freq_slider; gate_button] ++ [freq_slider]))]).
Proof.
  exact (group_is_transparent [gate_button]
           [("type", JStr "vgroup"); ("label", JStr "osc");
            ("items", JArr [freq_slider; gate_button])]
           [freq_slider; gate_button] [freq_slider] eq_refl eq_refl).
Defined.

(** X3 on [osc_manifest]: without "name", "inputs" and "outputs", and
    without the "label" of the group. *)
Lemma extract_items_info_strip_witness :
  extract_items_info osc_manifest =
  extract_items_info
    (JObj [("ui", JArr [JObj [("type", JStr "vgroup");
                             ("items", JArr [freq_slider; gate_button])]])]).
Proof.
  exact (extract_items_info_strip
           [("name", JStr "osc"); ("inputs", JNum (Int 0));
            ("outputs", JNum (Int 2)); ("ui", JArr [osc_group])]
           (JArr [osc_group]) eq_refl).
Defined.

End InfoFacts.

(** ** The patch builder *)

Module MaxFacts.
Import Py Info Max PyFacts.
Local Open Scope prog_scope.

Section Facts.
Context {F : PyFloat} {H : Host}.

Ltac shape_eq :=
  repeat first
    [ lia
    | progress cbn [unplaced]
    | apply imap_ext; intros ? ? _;
      unfold input_stub, input_line, output_stub, output_line,
        control_boxes, control_lines, setter_of, display_of, compose
    | match goal with
      | |- context [in_strs (type ?it) ?l] => destruct (in_strs (type it) l)
      end
    | progress f_equal ].

Lemma inputs_loop top sub codebox xs dsk :
  exists sub' new,
    pfor xs (fun i =>
       input_box <- add_textbox 1 ("in~ " +:+ pretty (i + 1)%Z) None [];
       add_line 1 input_box codebox i 0) (mkWorld [top; sub] dsk)
    = (Val tt, mkWorld [top; sub'] dsk) /\
    path sub' = path sub /\
    boxes sub' = boxes sub ++ new /\
    map unplaced new = imap (input_stub (S (length (boxes sub)))) xs /\
    lines sub' =
      lines sub ++ imap (input_line (box_id codebox) (S (length (boxes sub)))) xs.
Proof.
  revert sub. induction xs as [|i xs IH]; intros sub.
  - exists sub, []. by rewrite !app_nil_r.
  - cbn [pfor]. unfold pbind at 1 2. cbn.
    match goal with |- context [mkWorld [top; ?p] dsk] =>
      destruct (IH p) as (sub' & new & Hrun & Hp & Hb & Hn & Hl) end.
    cbn in Hp, Hb, Hn, Hl. rewrite length_app in Hn, Hl. cbn in Hn, Hl.
    eexists sub', (_ :: new). split; [exact Hrun|].
    rewrite Hp, Hb, Hl, <- !app_assoc. cbn. rewrite Hn.
    split_and!; try done; unfold input_stub, input_line; shape_eq.
Qed.

Lemma outputs_loop top sub codebox xs dsk :
  exists sub' new,
    pfor xs (fun i =>
       output_box <- add_textbox 1 ("out~ " +:+ pretty (i + 1)%Z) None [];
       add_line 1 codebox output_box 0 i) (mkWorld [top; sub] dsk)
    = (Val tt, mkWorld [top; sub'] dsk) /\
    path sub' = path sub /\
    boxes sub' = boxes sub ++ new /\
    map unplaced new = imap (output_stub (S (length (boxes sub)))) xs /\
    lines sub' =
      lines sub ++ imap (output_line (box_id codebox) (S (length (boxes sub)))) xs.
Proof.
  revert sub. induction xs as [|i xs IH]; intros sub.
  - exists sub, []. by rewrite !app_nil_r.
  - cbn [pfor]. unfold pbind at 1 2. cbn.
    match goal with |- context [mkWorld [top; ?p] dsk] =>
      destruct (IH p) as (sub' & new & Hrun & Hp & Hb & Hn & Hl) end.
    cbn in Hp, Hb, Hn, Hl. rewrite length_app in Hn, Hl. cbn in Hn, Hl.
    eexists sub', (_ :: new). split; [exact Hrun|].
    rewrite Hp, Hb, Hl, <- !app_assoc. cbn. rewrite Hn.
    split_and!; try done; unfold output_stub, output_line; shape_eq.
Qed.

Lemma controls_loop top sub codebox items dsk :
  exists sub' new,
    pfor items (fun item =>
         let shortname := shortname item in
         let item_type := type item in
         param <- add_textbox 1 ("set " +:+ str shortname) None [];
         value <-
           (if in_strs item_type ["button"; "checkbox"] then
              add_textbox 1 "toggle"
                (Some (mkRect (x (patching_rect param))
                              (float_sub (y (patching_rect param)) (float_of_Z 25))
                              (float_of_Z 24) (float_of_Z 24)))
                []
            else
              let min_value := min item in
              let max_value := max item in
              let init_value := init item in
              add_textbox 1 "number~"
                (Some (mkRect (x (patching_rect param))
                              (float_sub (y (patching_rect param)) (float_of_Z 25))
                              (w (patching_rect param))
                              (h (patching_rect param))))
                [("mode", JNum (Int 1)); ("sig", init_value);
                 ("minimum", min_value); ("maximum", max_value)]);
         _ <- add_line 1 value param 0 0;
         add_line 1 param codebox 0 0) (mkWorld [top; sub] dsk)
    = (Val tt, mkWorld [top; sub'] dsk) /\
    path sub' = path sub /\
    boxes sub' = boxes sub ++ new /\
    map unplaced new = concat (imap (control_boxes (S (length (boxes sub)))) items) /\
    lines sub' =
      lines sub ++
      concat (imap (control_lines (box_id codebox) (S (length (boxes sub)))) items).
Proof.
  revert sub. induction items as [|item items IH]; intros sub.
  - exists sub, []. by rewrite !app_nil_r.
  - cbn [pfor]. unfold pbind at 1 2 3 4.
    destruct (in_strs (type item) ["button"; "checkbox"]) eqn:Hty; cbn;
      (match goal with |- context [mkWorld [top; ?p] dsk] =>
         destruct (IH p) as (sub' & new & Hrun & Hp & Hb & Hn & Hl) end);
      cbn in Hp, Hb, Hn, Hl; rewrite !length_app in Hn, Hl; cbn in Hn, Hl;
      eexists sub', (_ :: _ :: new); (split; [exact Hrun|]);
      rewrite Hp, Hb, Hl, <- !app_assoc; cbn; rewrite Hn;
      unfold setter_of, display_of; rewrite Hty, !Nat.add_0_r.
    all: rewrite ?length_app; cbn; split_and!; try done; shape_eq.
Qed.

Ltac run_step := erewrite pbind_ok; [|lazy -[rect codebox_text empty]; reflexivity].

Lemma create_rnbo_patch_run maxpat_path dsp_name codebox_code items
    num_inputs num_outputs ins outs :
  range num_inputs = Val ins ->
  range num_outputs = Val outs ->
  exists in_boxes out_boxes ctl_boxes sub_lines,
    let code_box := CodeboxTilde 1 (codebox_text codebox_code) (rect 200 200 400 400) in
    let top :=
      mkPatcher maxpat_path
        [Comment 1 "Faust generated RNBO patch, Copyright (c) 2023 Grame"
           (rect 50 20 250 50);
         Textbox 2 "ezdac~" (rect 50 100 50 50) [];
         Rnbo 3 [("optimization", JStr "O3"); ("title", JStr dsp_name)]
           (rect 50 60 50 50) 1] [] in
    let sub :=
      mkPatcher "" (code_box :: in_boxes ++ out_boxes ++ ctl_boxes) sub_lines in
    create_rnbo_patch maxpat_path dsp_name codebox_code items num_inputs num_outputs
      empty_world
    = save 0 (mkWorld [top; sub] ∅) /\
    map unplaced in_boxes = imap (input_stub 2) ins /\
    map unplaced out_boxes = imap (output_stub (2 + length ins)) outs /\
    map unplaced ctl_boxes =
      concat (imap (control_boxes (2 + length ins + length outs)) items) /\
    sub_lines =
      imap (input_line 1 2) ins ++
      imap (output_line 1 (2 + length ins)) outs ++
      concat (imap (control_lines 1 (2 + length ins + length outs)) items).
Proof.
  intros Hins Houts.
  set (code_box := CodeboxTilde 1 (codebox_text codebox_code) (rect 200 200 400 400)).
  unfold create_rnbo_patch.
  do 6 run_step.
  erewrite pbind_ok; [|unfold lift; rewrite Hins; reflexivity].
  match goal with |- context [pbind (pfor ins _) _ (mkWorld [?t; ?s] ?d)] =>
    destruct (inputs_loop t s code_box ins d)
      as (sub1 & new1 & Hrun1 & Hp1 & Hb1 & Hn1 & Hl1) end.
  erewrite pbind_ok; [|exact Hrun1].
  erewrite pbind_ok; [|unfold lift; rewrite Houts; reflexivity].
  destruct (outputs_loop
              (mkPatcher maxpat_path
                 [Comment 1 "Faust generated RNBO patch, Copyright (c) 2023 Grame"
                    (rect 50 20 250 50);
                  Textbox 2 "ezdac~" (rect 50 100 50 50) [];
                  Rnbo 3 [("optimization", JStr "O3"); ("title", JStr dsp_name)]
                    (rect 50 60 50 50) 1] [])
              sub1 code_box outs ∅)
    as (sub2 & new2 & Hrun2 & Hp2 & Hb2 & Hn2 & Hl2).
  erewrite pbind_ok; [|exact Hrun2].
  destruct (controls_loop
              (mkPatcher maxpat_path
                 [Comment 1 "Faust generated RNBO patch, Copyright (c) 2023 Grame"
                    (rect 50 20 250 50);
                  Textbox 2 "ezdac~" (rect 50 100 50 50) [];
                  Rnbo 3 [("optimization", JStr "O3"); ("title", JStr dsp_name)]
                    (rect 50 60 50 50) 1] [])
              sub2 code_box items ∅)
    as (sub3 & new3 & Hrun3 & Hp3 & Hb3 & Hn3 & Hl3).
  erewrite pbind_ok; [|exact Hrun3].
  cbn in Hp1, Hb1, Hn1, Hl1.
  rewrite Hb1 in Hb2, Hn2, Hl2. rewrite Hb2 in Hb3, Hn3, Hl3.
  cbn in Hn2, Hl2, Hn3, Hl3. rewrite ?length_app in Hn2, Hl2, Hn3, Hl3.
  assert (Hlen1 : length new1 = length ins)
    by (by rewrite <- (length_map unplaced), Hn1, length_imap).
  assert (Hlen2 : length new2 = length outs)
    by (by rewrite <- (length_map unplaced), Hn2, length_imap).
  rewrite ?Hlen1, ?Hlen2 in Hn2, Hl2, Hn3, Hl3.
  exists new1, new2, new3, (lines sub3).
  split_and!.
  - destruct sub3 as [p3 b3 l3]. cbn in *. subst p3 b3.
    rewrite Hp2, Hp1, <- !app_assoc.
    reflexivity.
  - rewrite Hn1. shape_eq.
  - rewrite Hn2. shape_eq.
  - rewrite Hn3, ?length_app, ?Hlen1, ?Hlen2. shape_eq.
  - rewrite Hl3, Hl2, Hl1, ?length_app, ?Hlen1, ?Hlen2. cbn.
    rewrite <- app_assoc. shape_eq.
Qed.

Lemma prefix_empty s : String.prefix "" s = true.
Proof. by destruct s. Qed.

Lemma is_input_stub_input base k i : is_input_stub (input_stub base k i) = true.
Proof. unfold input_stub, String.append. cbn. apply prefix_empty. Qed.

Lemma is_output_stub_output base k i : is_output_stub (output_stub base k i) = true.
Proof. unfold output_stub, String.append. cbn. apply prefix_empty. Qed.

Lemma Forall_imap_intro {A B} (P : B -> Prop) (f : nat -> A -> B) (l : list A) :
  (forall k x, P (f k x)) -> Forall P (imap f l).
Proof.
  revert f. induction l as [|x l IH]; intros f Hf; cbn; constructor; [done|].
  apply IH. intros k y. apply Hf.
Qed.

Lemma Forall_unplaced (P : Box -> Prop) (bs : list Box) :
  (forall b, P (unplaced b) -> P b) ->
  Forall P (map unplaced bs) -> Forall P bs.
Proof.
  intros HP Hall. apply List.Forall_forall. intros b Hb. apply HP.
  rewrite List.Forall_forall in Hall. apply Hall. by apply in_map.
Qed.

(** What is in the subpatcher besides the code box: text boxes, none of
    them an "ezdac~". *)
Lemma sub_boxes_plain ins outs items (bs1 bs2 bs3 : list Box) base1 base2 base3 :
  map unplaced bs1 = imap (input_stub base1) ins ->
  map unplaced bs2 = imap (output_stub base2) outs ->
  map unplaced bs3 = concat (imap (control_boxes base3) items) ->
  Forall (fun b => is_textbox b = true /\ is_ezdac b = false)
    (bs1 ++ bs2 ++ bs3).
Proof.
  intros Hbs1 Hbs2 Hbs3.
  apply Forall_unplaced; [by intros []|]. rewrite !map_app, Hbs1, Hbs2, Hbs3.
  rewrite !Forall_app. split_and!.
  - apply Forall_imap_intro. intros k i. done.
  - apply Forall_imap_intro. intros k i. done.
  - apply Forall_concat. apply Forall_imap_intro. intros k item.
    unfold control_boxes, setter_of, display_of.
    destruct (in_strs _ _); repeat constructor; done.
Qed.

(** [save] of the top patcher, once the two patchers are built. *)
Lemma save_top (top sub : Patcher) :
  save 0 (mkWorld [top; sub] ∅) =
    (if can_save (path top) then Val tt else Raise PatcherIOError,
     mkWorld [top; sub]
       (if can_save (path top) then written (path top) (0, [top; sub]) ∅ else ∅)).
Proof. unfold save. cbn. by destruct (can_save (path top)). Qed.

Lemma range_raises n e : range n = Raise e -> e = TypeError.
Proof. destruct n as [| |[]| | |]; cbn; congruence. Qed.

Lemma range_fuel n : range n <> OutOfFuel.
Proof. by destruct n as [| |[]| | |]. Qed.

(** C7, as the code has it: whatever the descriptors and the counts, the
    call makes one top patcher with the comment, one "ezdac~" box and one
    rnbo~ box that refers to the subpatcher, and a subpatcher with one
    codebox~; all its other boxes are text boxes, none of them an
    "ezdac~".  The codebox~ holds the code text as py2max takes it: as
    given if it has a carriage return, and else with a carriage return
    put before every line feed.  With counts [range] accepts the call
    ends in [save] of the top patcher, which writes it under
    [maxpat_path], writes nothing if that path is empty, or raises; with
    other counts the call raises [TypeError] and writes nothing. *)
Theorem create_rnbo_patch_topology maxpat_path dsp_name codebox_code items
    num_inputs num_outputs :
  exists r sub_boxes sub_lines saved,
    let top :=
      mkPatcher maxpat_path
        [Comment 1 "Faust generated RNBO patch, Copyright (c) 2023 Grame"
           (rect 50 20 250 50);
         Textbox 2 "ezdac~" (rect 50 100 50 50) [];
         Rnbo 3 [("optimization", JStr "O3"); ("title", JStr dsp_name)]
           (rect 50 60 50 50) 1] [] in
    let sub :=
      mkPatcher ""
        (CodeboxTilde 1 (codebox_text codebox_code) (rect 200 200 400 400) :: sub_boxes)
        sub_lines in
    create_rnbo_patch maxpat_path dsp_name codebox_code items num_inputs num_outputs
      empty_world
    = (r, mkWorld [top; sub] saved) /\
    Forall (fun b => is_textbox b = true /\ is_ezdac b = false) sub_boxes /\
    match range num_inputs, range num_outputs with
    | Val _, Val _ =>
        if can_save maxpat_path
        then r = Val tt /\ saved = written maxpat_path (0, [top; sub]) ∅
        else r = Raise PatcherIOError /\ saved = ∅
    | _, _ => r = Raise TypeError /\ saved = ∅
    end.
Proof.
  destruct (range num_inputs) as [ins|e|] eqn:Hins;
    [|apply range_raises in Hins as Hex|by apply range_fuel in Hins].
  - destruct (range num_outputs) as [outs|e|] eqn:Houts;
      [|apply range_raises in Houts as Hex|by apply range_fuel in Houts].
    + destruct (create_rnbo_patch_run maxpat_path dsp_name codebox_code items _ _ _ _
                  Hins Houts)
        as (bs1 & bs2 & bs3 & sub_lines & Hrun & Hb1 & Hb2 & Hb3 & _).
      cbv zeta in Hrun. rewrite save_top in Hrun. cbn [path] in Hrun.
      eexists _, (bs1 ++ bs2 ++ bs3), sub_lines, _.
      split; [exact Hrun|]. split; [by eapply sub_boxes_plain|].
      by destruct (can_save maxpat_path).
    + subst e. unfold create_rnbo_patch. do 6 run_step.
      erewrite pbind_ok; [|unfold lift; rewrite Hins; reflexivity].
      match goal with |- context [pbind (pfor ins _) _ (mkWorld [?t; ?s] ?d)] =>
        destruct (inputs_loop t s
                    (CodeboxTilde 1 (codebox_text codebox_code) (rect 200 200 400 400))
                    ins d)
          as (sub1 & new1 & Hrun1 & Hp1 & Hb1 & Hn1 & _) end.
      erewrite pbind_ok; [|exact Hrun1].
      erewrite pbind_raise; [|unfold lift; rewrite Houts; reflexivity].
      destruct sub1 as [p1 b1 l1]. cbn in Hp1, Hb1. subst p1 b1.
      exists (Raise TypeError), new1, l1, ∅. split; [done|]. split; [|done].
      apply Forall_unplaced; [by intros []|]. rewrite Hn1.
      by apply Forall_imap_intro.
  - subst e. unfold create_rnbo_patch. do 6 run_step.
    erewrite pbind_raise; [|unfold lift; rewrite Hins; reflexivity].
    exists (Raise TypeError), [], [], ∅. split; [done|]. split; [constructor|].
    by destruct (range num_outputs).
Qed.


Lemma imap_seqZ {B} (f : nat -> Z -> B) n :
  imap f (seqZ 0 n) = map (fun i => f (Z.to_nat i) i) (seqZ 0 n).
Proof.
  apply list_eq. intros k.
  rewrite list_lookup_imap.
  change (map ?g ?l) with (g <$> l). rewrite list_lookup_fmap.
  destruct (seqZ 0 n !! k) as [i|] eqn:Hk; [|done]. cbn.
  apply lookup_seqZ in Hk as [-> _]. do 2 f_equal. lia.
Qed.

Lemma In_imap {A B} (f : nat -> A -> B) (l : list A) y :
  In y (imap f l) -> exists k x, y = f k x.
Proof.
  revert f. induction l as [|x l IH]; intros f; cbn; [done|].
  intros [<-|Hy]; [eauto|]. destruct (IH _ Hy) as (k & z & ->). by exists (S k), z.
Qed.

Lemma In_seqZ i n : In i (seqZ 0 n) <-> (0 <= i < n)%Z.
Proof. rewrite <- list_elem_of_In, elem_of_seqZ. lia. Qed.

Lemma filter_all {A} (p : A -> bool) (l : list A) :
  Forall (fun a => p a = true) l -> List.filter p l = l.
Proof. induction 1 as [|a l Ha _ IH]; cbn; [done|]. by rewrite Ha, IH. Qed.

Lemma filter_none {A} (p : A -> bool) (l : list A) :
  Forall (fun a => p a = false) l -> List.filter p l = [].
Proof. induction 1 as [|a l Ha _ IH]; cbn; [done|]. by rewrite Ha. Qed.

(** Where a line of a control starts and ends: at a box of a control,
    or it ends at the code box. *)
Lemma control_lines_ends code_id base items l :
  In l (concat (imap (control_lines code_id base) items)) ->
  base <= fst (source l) /\
  (fst (destination l) = code_id \/ base <= fst (destination l)).
Proof.
  intros Hl. apply in_concat in Hl as (ls & Hls & Hl).
  apply In_imap in Hls as (k & item & ->).
  destruct Hl as [<-|[<-|[]]]; cbn; split; auto with lia.
Qed.

Lemma map_box_tag_unplaced (bs : list Box) :
  map box_tag (map unplaced bs) = map box_tag bs.
Proof. rewrite map_map. apply map_ext. by intros []. Qed.

(** C3: with [num_inputs] and [num_outputs] channels the subpatcher,
    whose code box has id 1, holds exactly [num_inputs] boxes "in~ 1" to
    "in~ num_inputs", the one made for index [i] with its only line going
    to inlet [i] of the code box, and exactly [num_outputs] boxes
    "out~ 1" to "out~ num_outputs", the one made for index [i] with its
    only line coming from outlet [i] of the code box.  With that built
    the call ends in [save] of the top patcher. *)
Theorem create_rnbo_patch_stubs maxpat_path dsp_name codebox_code items
    (num_inputs num_outputs : Z) :
  (0 <= num_inputs)%Z ->
  (0 <= num_outputs)%Z ->
  exists top sub,
    create_rnbo_patch maxpat_path dsp_name codebox_code items
      (JNum (Int num_inputs)) (JNum (Int num_outputs)) empty_world
    = save 0 (mkWorld [top; sub] ∅) /\
    path top = maxpat_path /\
    head (boxes sub) =
      Some (CodeboxTilde 1 (codebox_text codebox_code) (rect 200 200 400 400)) /\
    let in_id (i : Z) := 2 + Z.to_nat i in
    let out_id (i : Z) := 2 + Z.to_nat num_inputs + Z.to_nat i in
    Z.of_nat (length (List.filter is_input_stub (boxes sub))) = num_inputs /\
    map box_tag (List.filter is_input_stub (boxes sub)) =
      map (fun i => (in_id i, Some ("in~ " +:+ pretty (i + 1)%Z))) (seqZ 0 num_inputs) /\
    (forall i, (0 <= i < num_inputs)%Z ->
       In (mkLine (in_id i, 0%Z) (1, i)) (lines sub) /\
       forall l, In l (lines sub) -> fst (source l) = in_id i ->
                 l = mkLine (in_id i, 0%Z) (1, i)) /\
    Z.of_nat (length (List.filter is_output_stub (boxes sub))) = num_outputs /\
    map box_tag (List.filter is_output_stub (boxes sub)) =
      map (fun i => (out_id i, Some ("out~ " +:+ pretty (i + 1)%Z)))
          (seqZ 0 num_outputs) /\
    (forall i, (0 <= i < num_outputs)%Z ->
       In (mkLine (1, i) (out_id i, 0%Z)) (lines sub) /\
       forall l, In l (lines sub) -> fst (destination l) = out_id i ->
                 l = mkLine (1, i) (out_id i, 0%Z)).
Proof.
  intros Hn Hm.
  destruct (create_rnbo_patch_run maxpat_path dsp_name codebox_code items
              (JNum (Int num_inputs)) (JNum (Int num_outputs)) _ _ eq_refl eq_refl)
    as (bs1 & bs2 & bs3 & sub_lines & Hrun & Hb1 & Hb2 & Hb3 & Hl).
  cbv zeta in Hrun. rewrite !length_seqZ in Hb2, Hb3, Hl.
  eexists _, _. split; [exact Hrun|]. split; [done|].
  split; [done|]. intros in_id out_id. cbn [boxes lines].
  (* the boxes, by kind *)
  assert (Hin1 : Forall (fun b => is_input_stub b = true) bs1).
  { apply Forall_unplaced; [by intros []|]. rewrite Hb1.
    apply Forall_imap_intro. intros. apply is_input_stub_input. }
  assert (Hin2 : Forall (fun b => is_input_stub b = false) bs2).
  { apply Forall_unplaced; [by intros []|]. rewrite Hb2.
    by apply Forall_imap_intro. }
  assert (Hin3 : Forall (fun b => is_input_stub b = false) bs3).
  { apply Forall_unplaced; [by intros []|]. rewrite Hb3.
    apply Forall_concat, Forall_imap_intro. intros k item.
    unfold control_boxes, setter_of, display_of.
    destruct (in_strs _ _); by repeat constructor. }
  assert (Hout1 : Forall (fun b => is_output_stub b = false) bs1).
  { apply Forall_unplaced; [by intros []|]. rewrite Hb1.
    by apply Forall_imap_intro. }
  assert (Hout2 : Forall (fun b => is_output_stub b = true) bs2).
  { apply Forall_unplaced; [by intros []|]. rewrite Hb2.
    apply Forall_imap_intro. intros. apply is_output_stub_output. }
  assert (Hout3 : Forall (fun b => is_output_stub b = false) bs3).
  { apply Forall_unplaced; [by intros []|]. rewrite Hb3.
    apply Forall_concat, Forall_imap_intro. intros k item.
    unfold control_boxes, setter_of, display_of.
    destruct (in_strs _ _); by repeat constructor. }
  assert (Hfin : List.filter is_input_stub
                   (CodeboxTilde 1 (codebox_text codebox_code) (rect 200 200 400 400)
                    :: bs1 ++ bs2 ++ bs3) = bs1).
  { cbn. rewrite !List.filter_app, (filter_all _ _ Hin1), (filter_none _ _ Hin2),
      (filter_none _ _ Hin3). by rewrite !app_nil_r. }
  assert (Hfout : List.filter is_output_stub
                    (CodeboxTilde 1 (codebox_text codebox_code) (rect 200 200 400 400)
                     :: bs1 ++ bs2 ++ bs3) = bs2).
  { cbn. rewrite !List.filter_app, (filter_none _ _ Hout1), (filter_all _ _ Hout2),
      (filter_none _ _ Hout3). by rewrite !app_nil_r. }
  rewrite Hfin, Hfout.
  rewrite imap_seqZ in Hb1, Hb2. rewrite !imap_seqZ in Hl.
  split_and!.
  - rewrite <- (length_map unplaced), Hb1, length_map, length_seqZ. lia.
  - by rewrite <- map_box_tag_unplaced, Hb1, map_map.
  - intros i Hi. split.
    + rewrite Hl. apply in_or_app. left. apply in_map_iff. exists i.
      split; [done|]. by apply In_seqZ.
    + intros l Hin Hsrc. rewrite Hl, !in_app_iff in Hin.
      destruct Hin as [Hin|[Hin|Hin]].
      * apply in_map_iff in Hin as (j & <- & Hj). apply In_seqZ in Hj.
        unfold input_line in *. cbn in Hsrc.
        assert (j = i) as -> by (unfold in_id in Hsrc; lia). done.
      * apply in_map_iff in Hin as (j & <- & Hj). cbn in Hsrc.
        unfold in_id in Hsrc. lia.
      * apply control_lines_ends in Hin as [Hsrc' _].
        unfold in_id in Hsrc. lia.
  - rewrite <- (length_map unplaced), Hb2, length_map, length_seqZ. lia.
  - rewrite <- map_box_tag_unplaced, Hb2, map_map. apply map_ext. intros i.
    unfold output_stub, box_tag, out_id. cbn. do 2 f_equal.
  - intros i Hi. split.
    + rewrite Hl. apply in_or_app. right. apply in_or_app. left.
      apply in_map_iff. exists i. split; [|by apply In_seqZ].
      unfold output_line, out_id. do 2 f_equal.
    + intros l Hin Hdst. rewrite Hl, !in_app_iff in Hin.
      destruct Hin as [Hin|[Hin|Hin]].
      * apply in_map_iff in Hin as (j & <- & Hj). cbn in Hdst.
        unfold out_id in Hdst. lia.
      * apply in_map_iff in Hin as (j & <- & Hj). apply In_seqZ in Hj.
        unfold output_line in *. cbn in Hdst.
        assert (j = i) as -> by (unfold out_id in Hdst; lia).
        unfold out_id. do 2 f_equal.
      * apply control_lines_ends in Hin as [_ [Hd|Hd]];
          unfold out_id in Hdst; rewrite ?length_seqZ in Hd; lia.
Qed.

(** C9: a manifest without "ui" gives no descriptors, and one without
    "inputs" or "outputs" has the patch built with 0 for that count. *)
Theorem missing_manifest_keys_default dsp_name codebox_code fields maxpat_path σ :
  (lookup_key "ui" fields = None ->
   extract_items_info (JObj fields) = Val []) /\
  (lookup_key "inputs" fields = None ->
   gen_faust_rnbo dsp_name codebox_code (JObj fields) maxpat_path σ =
     (items_info_list <- lift (extract_items_info (JObj fields));
      num_outputs <- lift (get (JObj fields) "outputs" (JNum (Int 0)));
      create_rnbo_patch maxpat_path dsp_name codebox_code items_info_list
        (JNum (Int 0)) num_outputs) σ) /\
  (lookup_key "outputs" fields = None ->
   gen_faust_rnbo dsp_name codebox_code (JObj fields) maxpat_path σ =
     (items_info_list <- lift (extract_items_info (JObj fields));
      num_inputs <- lift (get (JObj fields) "inputs" (JNum (Int 0)));
      create_rnbo_patch maxpat_path dsp_name codebox_code items_info_list
        num_inputs (JNum (Int 0))) σ).
Proof.
  split_and!.
  - apply InfoFacts.extract_items_info_no_ui.
  - intros Hno. unfold gen_faust_rnbo, pbind, lift, get. rewrite Hno.
    destruct (extract_items_info (JObj fields)); reflexivity.
  - intros Hno. unfold gen_faust_rnbo, pbind, lift, get. rewrite Hno.
    destruct (extract_items_info (JObj fields)); reflexivity.
Qed.

(** *** What a call writes, and when *)

Lemma quiet_weaken {A} (P P' : exn -> Prop) (Q Q' : A -> Prop) (m : prog world A) :
  (forall e, P e -> P' e) -> (forall a, Q a -> Q' a) -> quiet P Q m -> quiet P' Q' m.
Proof.
  intros HP HQ Hm σ. destruct (Hm σ) as (r & σ' & Hrun & Hd & Hp & Hr).
  exists r, σ'. split_and!; try done. destruct r; auto.
Qed.

Lemma quiet_ret {A} P (a : A) : quiet P (fun _ => True) (ret a).
Proof. intros σ. by exists (Val a), σ. Qed.

Lemma quiet_lift {A} (P : exn -> Prop) (o : outcome A) :
  match o with Val _ => True | Raise e => P e | OutOfFuel => False end ->
  quiet P (fun a => o = Val a) (lift o).
Proof. intros Ho σ. exists o, σ. split_and!; try done. by destruct o. Qed.

Lemma quiet_bind {A B} P Q Q' (m : prog world A) (k : A -> prog world B) :
  quiet P Q m -> (forall a, Q a -> quiet P Q' (k a)) -> quiet P Q' (pbind m k).
Proof.
  intros Hm Hk σ. destruct (Hm σ) as (r & σ1 & Hrun & Hd & Hp & Hr).
  unfold pbind. rewrite Hrun. destruct r as [a|e|]; [|by exists (Raise e), σ1|done].
  destruct (Hk a Hr σ1) as (r2 & σ2 & Hrun2 & Hd2 & Hp2 & Hr2).
  exists r2, σ2. split_and!; [done|congruence|auto|done].
Qed.

Lemma quiet_pfor {A} P (xs : list A) (body : A -> prog world unit) :
  (forall x, In x xs -> quiet P (fun _ => True) (body x)) ->
  quiet P (fun _ => True) (pfor xs body).
Proof.
  induction xs as [|x xs IH]; intros Hb; cbn [pfor]; [apply quiet_ret|].
  eapply quiet_bind; [apply Hb; by left|]. intros _ _. apply IH.
  intros y Hy. apply Hb. by right.
Qed.

Lemma quiet_new_patcher P s : quiet P (fun _ => True) (new_patcher s).
Proof.
  intros σ. eexists _, _. split; [reflexivity|]. cbn. split_and!; try done.
  intros p t Hp. destruct (patchers σ !! p) as [q|] eqn:Hq; [|done].
  by rewrite (lookup_app_l_Some _ _ _ _ Hq).
Qed.

Lemma path_insert (σ : world) p q i t :
  path q = path (the_patcher p σ) ->
  path <$> patchers σ !! i = Some t ->
  path <$> <[p := q]> (patchers σ) !! i = Some t.
Proof.
  intros Hq Hi. destruct (decide (i = p)) as [->|Hne].
  - unfold the_patcher in Hq.
    destruct (patchers σ !! p) as [q0|] eqn:Hp; [|done].
    rewrite list_lookup_insert_eq by (by eapply lookup_lt_Some).
    cbn in *. congruence.
  - by rewrite list_lookup_insert_ne.
Qed.

Lemma quiet_add_box P p maxclass r mk :
  quiet P (fun b => exists id r', b = mk id r') (add_box p maxclass r mk).
Proof.
  intros σ. eexists _, _. split; [reflexivity|]. cbn. split_and!; try done; [|eauto].
  intros i t. by apply path_insert.
Qed.

Lemma quiet_add_line P p src dst inlet outlet :
  quiet P (fun _ => True) (add_line p src dst inlet outlet).
Proof.
  intros σ. eexists _, _. split; [reflexivity|]. cbn. split_and!; try done.
  intros i t. by apply path_insert.
Qed.

Lemma quiet_add_rnbo P p attrs r :
  quiet P (fun b => exists sp, subpatcher b = Val sp) (add_rnbo p attrs r).
Proof.
  eapply quiet_bind; [apply quiet_new_patcher|]. intros sp _.
  eapply quiet_weaken; [| |apply quiet_add_box]; [done|].
  intros b (id & r' & ->). by exists sp.
Qed.

Lemma quiet_any {A} P (Q : A -> Prop) (m : prog world A) :
  quiet P Q m -> quiet P (fun _ => True) m.
Proof. by apply quiet_weaken. Qed.

Lemma saves_save P (Q : unit -> Prop) p s : Q tt -> saves P Q p s (save p).
Proof.
  intros HQ σ Hp. unfold save.
  assert (Hpath : path (the_patcher p σ) = s).
  { unfold the_patcher. destruct (patchers σ !! p); cbn in *; congruence. }
  rewrite Hpath. destruct (can_save s) eqn:Hs.
  - eexists _, _. split; [reflexivity|]. done.
  - eexists _, _. split; [reflexivity|]. split; [done|]. right. eauto.
Qed.

Lemma saves_bind {A B} P Q Q' p s (m : prog world A) (k : A -> prog world B) :
  quiet P Q m -> (forall a, Q a -> saves P Q' p s (k a)) -> saves P Q' p s (pbind m k).
Proof.
  intros Hm Hk σ Hp. destruct (Hm σ) as (r & σ1 & Hrun & Hd & Hpath & Hr).
  unfold pbind. rewrite Hrun.
  destruct r as [a|e|]; [|exists (Raise e), σ1; split; [done|]; by split; [|left]|done].
  destruct (Hk a Hr σ1 (Hpath _ _ Hp)) as (r2 & σ2 & Hrun2 & Hr2).
  exists r2, σ2. split; [done|].
  destruct r2; [|destruct Hr2; split; [congruence|done]|done].
  destruct Hr2 as (? & ? & ?). split_and!; [done|done|congruence].
Qed.

(** [Patcher(path)] and what follows it. *)
Lemma saves_new_patcher {B} P Q s (k : nat -> prog world B) (σ : world) :
  (forall p, saves P Q p s (k p)) ->
  exists r σ',
    pbind (new_patcher s) k σ = (r, σ') /\
    match r with
    | Val a =>
        Q a /\ can_save s = true /\
        disk σ' = written s (length (patchers σ), patchers σ') (disk σ)
    | Raise e =>
        disk σ' = disk σ /\
        (P e \/ (e = PatcherIOError /\ can_save s = false /\ exists a, Q a))
    | OutOfFuel => False
    end.
Proof.
  intros Hk. erewrite pbind_ok; [|reflexivity].
  destruct (Hk (length (patchers σ))
              (mkWorld (patchers σ ++ [mkPatcher s [] []]) (disk σ)))
    as (r & σ' & Hrun & Hr).
  { cbn. by rewrite lookup_app_r, Nat.sub_diag by done. }
  by exists r, σ'.
Qed.

Lemma quiet_range n :
  quiet (fun e => e = TypeError) (fun xs => range n = Val xs) (lift (range n)).
Proof.
  apply quiet_lift. destruct (range n) eqn:Hn; [done| |].
  - by apply range_raises in Hn.
  - by apply range_fuel in Hn.
Qed.

Lemma quiet_controls_body P sp codebox (item : descriptor) :
  quiet P (fun _ => True)
    (let shortname := shortname item in
     let item_type := type item in
     param <- add_textbox sp ("set " +:+ str shortname) None [];
     value <-
       (if in_strs item_type ["button"; "checkbox"] then
          add_textbox sp "toggle"
            (Some (mkRect (x (patching_rect param))
                          (float_sub (y (patching_rect param)) (float_of_Z 25))
                          (float_of_Z 24) (float_of_Z 24)))
            []
        else
          let min_value := min item in
          let max_value := max item in
          let init_value := init item in
          add_textbox sp "number~"
            (Some (mkRect (x (patching_rect param))
                          (float_sub (y (patching_rect param)) (float_of_Z 25))
                          (w (patching_rect param))
                          (h (patching_rect param))))
            [("mode", JNum (Int 1)); ("sig", init_value);
             ("minimum", min_value); ("maximum", max_value)]);
     _ <- add_line sp value param 0 0;
     add_line sp param codebox 0 0).
Proof.
  cbv zeta.
  eapply quiet_bind; [apply quiet_add_box|]. intros param _.
  eapply quiet_bind.
  { destruct (in_strs _ _); eapply quiet_any; apply quiet_add_box. }
  intros value _.
  eapply quiet_bind; [apply quiet_add_line|]. intros _ _. apply quiet_add_line.
Qed.

Lemma create_rnbo_patch_saves maxpat_path dsp_name codebox_code items
    num_inputs num_outputs σ :
  exists r σ',
    create_rnbo_patch maxpat_path dsp_name codebox_code items num_inputs num_outputs σ
    = (r, σ') /\
    match r with
    | Val _ =>
        can_save maxpat_path = true /\
        disk σ' = written maxpat_path (length (patchers σ), patchers σ') (disk σ)
    | Raise e =>
        disk σ' = disk σ /\
        (e = TypeError \/ (e = PatcherIOError /\ can_save maxpat_path = false))
    | OutOfFuel => False
    end.
Proof.
  unfold create_rnbo_patch.
  edestruct (saves_new_patcher (B := unit) (fun e => e = TypeError) (fun _ => True)
               maxpat_path) as (r & σ' & Hrun & Hr); cycle 1.
  { exists r, σ'. split; [exact Hrun|].
    destruct r as [?|?|]; [by destruct Hr as (_ & ? & ?)| |done].
    destruct Hr as [? [?|(? & ? & _)]]; auto. }
  intros patcher.
  eapply saves_bind; [apply quiet_add_box|]. intros _ _.
  eapply saves_bind; [apply quiet_add_box|]. intros audio_out _.
  eapply saves_bind; [apply quiet_add_rnbo|]. intros sbox (sp & Hsp).
  eapply saves_bind; [apply quiet_lift; by rewrite Hsp|]. intros sp' _.
  eapply saves_bind; [apply quiet_add_box|]. intros codebox _.
  eapply saves_bind; [apply quiet_range|]. intros ins _.
  eapply saves_bind.
  { apply quiet_pfor. intros i _.
    eapply quiet_bind; [apply quiet_add_box|]. intros b _. apply quiet_add_line. }
  intros _ _.
  eapply saves_bind; [apply quiet_range|]. intros outs _.
  eapply saves_bind.
  { apply quiet_pfor. intros i _.
    eapply quiet_bind; [apply quiet_add_box|]. intros b _. apply quiet_add_line. }
  intros _ _.
  eapply saves_bind.
  { apply quiet_pfor. intros item _. apply quiet_controls_body. }
  intros _ _. by apply saves_save.
Qed.

(** X11: whatever the manifest and the state of py2max, [gen_faust_rnbo]
    returns after [save] went through, with the patcher it made written
    under [maxpat_path] unless that path is empty, or it raises with the
    files as they were: a [TypeError] or an [AttributeError], or the
    error of [save] where the path cannot be written. *)
Theorem gen_faust_rnbo_writes_once dsp_name codebox_code json_data maxpat_path σ :
  exists r σ',
    gen_faust_rnbo dsp_name codebox_code json_data maxpat_path σ = (r, σ') /\
    match r with
    | Val _ =>
        can_save maxpat_path = true /\
        disk σ' = written maxpat_path (length (patchers σ), patchers σ') (disk σ)
    | Raise e =>
        disk σ' = disk σ /\
        (e = TypeError \/ e = AttributeError \/
         (e = PatcherIOError /\ can_save maxpat_path = false))
    | OutOfFuel => False
    end.
Proof.
  unfold gen_faust_rnbo. rewrite pbind_lift.
  pose proof (InfoFacts.extract_items_info_total json_data) as Htotal.
  destruct (extract_items_info json_data) as [l|e|] eqn:Hrun; [| |done].
  - rewrite pbind_lift.
    destruct json_data as [|b|num|s|elems|fields];
      try (by eexists _, _; split; [reflexivity|]; split; [|right; left]).
    cbn [get]. rewrite pbind_lift.
    destruct (create_rnbo_patch_saves maxpat_path dsp_name codebox_code l
                (from_option id (JNum (Int 0)) (lookup_key "inputs" fields))
                (from_option id (JNum (Int 0)) (lookup_key "outputs" fields)) σ)
      as (r & σ' & Hcreate & Hr).
    exists r, σ'. split; [exact Hcreate|].
    destruct r as [u|e|]; [done| |done]. destruct Hr as [Hd [->|?]]; auto.
  - apply InfoFacts.extract_items_info_raises in Hrun.
    eexists _, _. split; [reflexivity|]. split; [done|]. tauto.
Qed.

(** X12: on a manifest that is not an object (a list, a string, a
    number, [null]) [gen_faust_rnbo] raises before it has made a
    patcher: the state of py2max is as it was. *)
Theorem gen_faust_rnbo_not_object dsp_name codebox_code json_data maxpat_path σ :
  (forall fields, json_data <> JObj fields) ->
  exists e,
    (e = TypeError \/ e = AttributeError) /\
    gen_faust_rnbo dsp_name codebox_code json_data maxpat_path σ = (Raise e, σ).
Proof.
  intros Hno. unfold gen_faust_rnbo. rewrite pbind_lift.
  pose proof (InfoFacts.extract_items_info_total json_data) as Htotal.
  destruct (extract_items_info json_data) as [l|e|] eqn:Hrun; [| |done].
  - rewrite pbind_lift. exists AttributeError. split; [by right|].
    destruct json_data; try done. by destruct (Hno items).
  - apply InfoFacts.extract_items_info_raises in Hrun. by exists e.
Qed.

(** X10: [create_rnbo_patch] does not read the "step" of a descriptor:
    with any other steps in their place the call does the same. *)
Theorem create_rnbo_patch_ignores_step maxpat_path dsp_name codebox_code items
    num_inputs num_outputs (new_step : descriptor -> json) σ :
  create_rnbo_patch maxpat_path dsp_name codebox_code
    (map (fun d => Descriptor (shortname d) (type d) (init d) (min d) (max d)
                     (new_step d)) items)
    num_inputs num_outputs σ
  = create_rnbo_patch maxpat_path dsp_name codebox_code items num_inputs num_outputs σ.
Proof.
  unfold create_rnbo_patch.
  do 10 (apply pbind_ext; intros ? ?).
  unfold pbind at 1 3. rewrite pfor_map. reflexivity.
Qed.

Lemma seqZ_max z : seqZ 0 (Z.max 0 z) = seqZ 0 z.
Proof. unfold seqZ. f_equal. f_equal. lia. Qed.

(** X9: the counts are read by [range] only: a count below 0 builds
    what 0 builds, no stub at all, and [True] and [False] build what 1
    and 0 build. *)
Theorem create_rnbo_patch_counts maxpat_path dsp_name codebox_code items σ :
  (forall num_inputs num_outputs : Z,
     create_rnbo_patch maxpat_path dsp_name codebox_code items
       (JNum (Int num_inputs)) (JNum (Int num_outputs)) σ
     = create_rnbo_patch maxpat_path dsp_name codebox_code items
         (JNum (Int (Z.max 0 num_inputs))) (JNum (Int (Z.max 0 num_outputs))) σ) /\
  (forall num_inputs num_outputs : bool,
     create_rnbo_patch maxpat_path dsp_name codebox_code items
       (JBool num_inputs) (JBool num_outputs) σ
     = create_rnbo_patch maxpat_path dsp_name codebox_code items
         (JNum (Int (if num_inputs then 1 else 0)))
         (JNum (Int (if num_outputs then 1 else 0))) σ).
Proof.
  split; [|done]. intros zi zo. unfold create_rnbo_patch.
  do 6 (apply pbind_ext; intros ? ?).
  rewrite !pbind_lift. cbn [range]. rewrite seqZ_max.
  apply pbind_ext; intros ? ?.
  rewrite !pbind_lift. cbn [range]. by rewrite seqZ_max.
Qed.

(** *** The builder on any list *)

Lemma getitem_raises item key :
  match getitem item key with
  | Val _ => True
  | Raise e => e = TypeError \/ e = KeyError
  | OutOfFuel => False
  end.
Proof. destruct item; cbn; auto. destruct (lookup_key key items); auto. Qed.

Lemma iter_raises v :
  match iter v with
  | Val _ => True
  | Raise e => e = TypeError \/ e = KeyError
  | OutOfFuel => False
  end.
Proof. destruct v; cbn; auto. Qed.

Local Abbreviation untyped_body sp codebox :=
  (fun item : json =>
     shortname <- lift (getitem item "shortname");
     item_type <- lift (getitem item "type");
     param <- add_textbox sp ("set " +:+ str shortname) None [];
     value <-
       (if in_strs item_type ["button"; "checkbox"] then
          add_textbox sp "toggle"
            (Some (mkRect (x (patching_rect param))
                          (float_sub (y (patching_rect param)) (float_of_Z 25))
                          (float_of_Z 24) (float_of_Z 24)))
            []
        else
          min_value <- lift (getitem item "min");
          max_value <- lift (getitem item "max");
          init_value <- lift (getitem item "init");
          add_textbox sp "number~"
            (Some (mkRect (x (patching_rect param))
                          (float_sub (y (patching_rect param)) (float_of_Z 25))
                          (w (patching_rect param))
                          (h (patching_rect param))))
            [("mode", JNum (Int 1)); ("sig", init_value);
             ("minimum", min_value); ("maximum", max_value)]);
     _ <- add_line sp value param 0 0;
     add_line sp param codebox 0 0).

Lemma quiet_untyped_body sp codebox item :
  quiet (fun e => e = TypeError \/ e = KeyError) (fun _ => True)
    (untyped_body sp codebox item).
Proof.
  eapply quiet_bind; [apply quiet_lift, getitem_raises|]. intros shortname _.
  eapply quiet_bind; [apply quiet_lift, getitem_raises|]. intros item_type _.
  eapply quiet_bind; [apply quiet_add_box|]. intros param _.
  eapply quiet_bind.
  { destruct (in_strs _ _); [eapply quiet_any; apply quiet_add_box|].
    eapply quiet_bind; [apply quiet_lift, getitem_raises|]. intros min_value _.
    eapply quiet_bind; [apply quiet_lift, getitem_raises|]. intros max_value _.
    eapply quiet_bind; [apply quiet_lift, getitem_raises|]. intros init_value _.
    eapply quiet_any; apply quiet_add_box. }
  intros value _.
  eapply quiet_bind; [apply quiet_add_line|]. intros _ _. apply quiet_add_line.
Qed.

Lemma quiet_untyped_body_dict sp codebox fields :
  quiet (fun e => e = KeyError /\ Untyped.usable (JObj fields) = false)
    (fun _ => Untyped.usable (JObj fields) = true)
    (untyped_body sp codebox (JObj fields)).
Proof.
  intros σ.
  destruct (quiet_untyped_body sp codebox (JObj fields) σ)
    as (r & σ' & Hrun & Hd & Hp & _).
  exists r, σ'. split_and!; [done..|].
  revert Hrun. unfold Untyped.usable, Untyped.has_key, pbind, lift. cbn [getitem].
  destruct (lookup_key "shortname" fields); [|by intros [= <- _]].
  destruct (lookup_key "type" fields) as [item_type|]; [|by intros [= <- _]].
  cbn [andb]. destruct (in_strs item_type _); [by intros [= <- _]|].
  destruct (lookup_key "min" fields); [|by intros [= <- _]].
  destruct (lookup_key "max" fields); [|by intros [= <- _]].
  destruct (lookup_key "init" fields); [|by intros [= <- _]].
  by intros [= <- _].
Qed.

Lemma quiet_pfor_all {A} (ok : A -> bool) (P : exn -> Prop) (xs : list A)
    (body : A -> prog world unit) :
  (forall x, In x xs ->
     quiet (fun e => P e /\ ok x = false) (fun _ => ok x = true) (body x)) ->
  quiet (fun e => P e /\ forallb ok xs = false) (fun _ => forallb ok xs = true)
    (pfor xs body).
Proof.
  induction xs as [|x xs IH]; intros Hb; cbn [pfor forallb].
  - intros σ. by exists (Val tt), σ.
  - eapply quiet_bind.
    + eapply quiet_weaken; [| |apply Hb; by left].
      * intros e [He ->]. done.
      * intros a Ha. exact Ha.
    + intros _ ->. cbn [andb]. apply IH. intros y Hy. apply Hb. by right.
Qed.

Ltac prefix_steps :=
  intros patcher;
  eapply saves_bind; [apply quiet_add_box|]; intros _ _;
  eapply saves_bind; [apply quiet_add_box|]; intros audio_out _;
  eapply saves_bind; [apply quiet_add_rnbo|]; intros sbox (sp & Hsp);
  eapply saves_bind; [apply quiet_lift; by rewrite Hsp|]; intros sp' _;
  eapply saves_bind; [apply quiet_add_box|]; intros codebox _.

Ltac stub_loop :=
  apply quiet_pfor; intros i _;
  eapply quiet_bind; [apply quiet_add_box|]; intros b _; apply quiet_add_line.

(** X14: on any list, whatever it holds, [create_rnbo_patch] returns
    after [save] went through, with its patcher written under
    [maxpat_path] unless that path is empty, or it raises with the
    files as they were: a [TypeError] or a [KeyError], or the error of
    [save] where the path cannot be written. *)
Theorem untyped_create_writes_once maxpat_path dsp_name codebox_code
    items_info_list num_inputs num_outputs σ :
  exists r σ',
    Untyped.create_rnbo_patch maxpat_path dsp_name codebox_code items_info_list
      num_inputs num_outputs σ = (r, σ') /\
    match r with
    | Val _ =>
        can_save maxpat_path = true /\
        disk σ' = written maxpat_path (length (patchers σ), patchers σ') (disk σ)
    | Raise e =>
        disk σ' = disk σ /\
        (e = TypeError \/ e = KeyError \/
         (e = PatcherIOError /\ can_save maxpat_path = false))
    | OutOfFuel => False
    end.
Proof.
  unfold Untyped.create_rnbo_patch.
  edestruct (saves_new_patcher (B := unit) (fun e => e = TypeError \/ e = KeyError)
               (fun _ => True) maxpat_path) as (r & σ' & Hrun & Hr); cycle 1.
  { exists r, σ'. split; [exact Hrun|].
    destruct r as [?|?|]; [by destruct Hr as (_ & ? & ?)| |done].
    destruct Hr as [? [[?|?]|(? & ? & _)]]; auto. }
  prefix_steps.
  eapply saves_bind.
  { eapply quiet_weaken; [| |apply quiet_range]; [intros e ->; by left|done]. }
  intros ins _.
  eapply saves_bind; [stub_loop|]. intros _ _.
  eapply saves_bind.
  { eapply quiet_weaken; [| |apply quiet_range]; [intros e ->; by left|done]. }
  intros outs _.
  eapply saves_bind; [stub_loop|]. intros _ _.
  eapply saves_bind; [apply quiet_lift, iter_raises|]. intros items _.
  eapply saves_bind.
  { apply quiet_pfor. intros item _. apply quiet_untyped_body. }
  intros _ _. by apply saves_save.
Qed.

(** X15: on a list of dicts [create_rnbo_patch] gets to [save] if each
    dict has "shortname" and "type" and, unless its type is "button" or
    "checkbox", "min", "max" and "init"; "step" is not asked for.  It
    then returns or raises as [save] does.  If a dict lacks such a key
    the call raises [KeyError] and the files are as they were. *)
Theorem untyped_create_key_error maxpat_path dsp_name codebox_code
    (descriptors : list (list (string * json))) num_inputs num_outputs ins outs σ :
  range num_inputs = Val ins ->
  range num_outputs = Val outs ->
  exists σ',
    Untyped.create_rnbo_patch maxpat_path dsp_name codebox_code
      (JArr (map JObj descriptors)) num_inputs num_outputs σ
    = (if forallb Untyped.usable (map JObj descriptors) then
         if can_save maxpat_path then Val tt else Raise PatcherIOError
       else Raise KeyError, σ') /\
    disk σ' =
      if forallb Untyped.usable (map JObj descriptors) && can_save maxpat_path
      then written maxpat_path (length (patchers σ), patchers σ') (disk σ)
      else disk σ.
Proof.
  intros Hins Houts.
  unfold Untyped.create_rnbo_patch.
  edestruct (saves_new_patcher (B := unit)
               (fun e => e = KeyError /\
                         forallb Untyped.usable (map JObj descriptors) = false)
               (fun _ => forallb Untyped.usable (map JObj descriptors) = true)
               maxpat_path) as (r & σ' & Hrun & Hr); cycle 1.
  { exists σ'. rewrite Hrun.
    destruct r as [[]|e|]; [destruct Hr as (-> & -> & ->)| |done]; [done|].
    destruct Hr as [-> [[-> ->]|(-> & -> & _ & ->)]]; [done|].
    by rewrite andb_false_r. }
  prefix_steps.
  eapply saves_bind; [apply quiet_lift; by rewrite Hins|]. intros ? _.
  eapply saves_bind; [stub_loop|]. intros _ _.
  eapply saves_bind; [apply quiet_lift; by rewrite Houts|]. intros ? _.
  eapply saves_bind; [stub_loop|]. intros _ _.
  eapply saves_bind; [by apply quiet_lift|]. intros items [= <-].
  eapply saves_bind.
  { apply (quiet_pfor_all Untyped.usable (fun e => e = KeyError)).
    intros x Hx. apply in_map_iff in Hx as (fields & <- & _).
    apply quiet_untyped_body_dict. }
  intros u Hall. by apply saves_save.
Qed.

(** X13: on the dicts of a list of descriptors, the six keys each, the
    function does what [Max.create_rnbo_patch] does on the descriptors:
    no lookup fails on a list the extractor has returned. *)
Theorem untyped_create_refines maxpat_path dsp_name codebox_code
    (items : list descriptor) num_inputs num_outputs σ :
  Untyped.create_rnbo_patch maxpat_path dsp_name codebox_code
    (JArr (map Heap.descriptor_json items)) num_inputs num_outputs σ
  = create_rnbo_patch maxpat_path dsp_name codebox_code items num_inputs num_outputs σ.
Proof.
  unfold Untyped.create_rnbo_patch, create_rnbo_patch.
  do 10 (apply pbind_ext; intros ? ?).
  rewrite pbind_lift. cbn [iter].
  unfold pbind at 1 7. rewrite pfor_map.
  erewrite pfor_ext; [reflexivity|].
  intros item s. cbv beta zeta.
  change (getitem (Heap.descriptor_json item) "shortname") with (Val (shortname item)).
  change (getitem (Heap.descriptor_json item) "type") with (Val (type item)).
  change (getitem (Heap.descriptor_json item) "min") with (Val (min item)).
  change (getitem (Heap.descriptor_json item) "max") with (Val (max item)).
  change (getitem (Heap.descriptor_json item) "init") with (Val (init item)).
  rewrite !pbind_lift.
  apply pbind_ext. intros param s1. apply pbind_ext_l.
  destruct (in_strs (type item) ["button"; "checkbox"]); [done|].
  by rewrite !pbind_lift.
Qed.

Lemma create_rnbo_patch_returns_iff maxpat_path dsp_name codebox_code items
    num_inputs num_outputs σ :
  (exists σ',
     create_rnbo_patch maxpat_path dsp_name codebox_code items num_inputs num_outputs σ
     = (Val tt, σ')) <->
  (exists ins, range num_inputs = Val ins) /\
  (exists outs, range num_outputs = Val outs) /\
  can_save maxpat_path = true.
Proof.
  split.
  - intros (σ1 & Hret). revert Hret. unfold create_rnbo_patch.
    edestruct (saves_new_patcher (B := unit) (fun _ => True)
                 (fun _ => (exists ins, range num_inputs = Val ins) /\
                           (exists outs, range num_outputs = Val outs))
                 maxpat_path) as (r & σ' & Hrun & Hr); cycle 1.
    { rewrite Hrun. intros [= -> _]. destruct Hr as ([? ?] & ? & _). done. }
    prefix_steps.
    eapply saves_bind.
    { eapply quiet_weaken; [| |apply quiet_range]; [done|]. intros a Ha. exact Ha. }
    intros ins Hins.
    eapply saves_bind; [stub_loop|]. intros _ _.
    eapply saves_bind.
    { eapply quiet_weaken; [| |apply quiet_range]; [done|]. intros a Ha. exact Ha. }
    intros outs Houts.
    eapply saves_bind; [stub_loop|]. intros _ _.
    eapply saves_bind.
    { apply quiet_pfor. intros item _. apply quiet_controls_body. }
    intros _ _. apply saves_save. cbv beta in Hins, Houts. split; eauto.
  - intros ((ins & Hins) & (outs & Houts) & Hsave). unfold create_rnbo_patch.
    edestruct (saves_new_patcher (B := unit) (fun _ => False) (fun _ => True)
                 maxpat_path) as (r & σ' & Hrun & Hr); cycle 1.
    { exists σ'. rewrite Hrun. destruct r as [[]|e|]; [done| |done].
      destruct Hr as [_ [[]|(_ & ? & _)]]. congruence. }
    prefix_steps.
    eapply saves_bind; [apply quiet_lift; by rewrite Hins|]. intros ? _.
    eapply saves_bind; [stub_loop|]. intros _ _.
    eapply saves_bind; [apply quiet_lift; by rewrite Houts|]. intros ? _.
    eapply saves_bind; [stub_loop|]. intros _ _.
    eapply saves_bind.
    { apply quiet_pfor. intros item _. apply quiet_controls_body. }
    intros _ _. by apply saves_save.
Qed.

(** X16: on a manifest that is an object, [gen_faust_rnbo] returns
    exactly when the "ui" section, if there is one, is a tree of
    elements, [range] takes both counts, each an [int] or a [bool], 0
    where the key is missing, and [save] goes through: [maxpat_path] is
    empty or can be written.  In every other case it raises. *)
Theorem gen_faust_rnbo_returns_iff dsp_name codebox_code fields maxpat_path σ :
  (exists σ',
     gen_faust_rnbo dsp_name codebox_code (JObj fields) maxpat_path σ = (Val tt, σ')) <->
  (forall ui, lookup_key "ui" fields = Some ui -> ui_tree ui) /\
  (exists ins, range (field fields "inputs" (JNum (Int 0))) = Val ins) /\
  (exists outs, range (field fields "outputs" (JNum (Int 0))) = Val outs) /\
  can_save maxpat_path = true.
Proof.
  rewrite <- InfoFacts.extract_items_info_returns_tree.
  unfold gen_faust_rnbo. rewrite pbind_lift.
  destruct (extract_items_info (JObj fields)) as [l|e|].
  - rewrite !pbind_lift. cbn [get]. rewrite !pbind_lift.
    rewrite create_rnbo_patch_returns_iff. unfold field. split; [|tauto].
    intros Hr. split; [eauto|done].
  - split; [by intros (? & ?)|]. by intros [(? & ?) _].
  - split; [by intros (? & ?)|]. by intros [(? & ?) _].
Qed.

(** *** The boxes and lines of the patch *)

Lemma box_id_unplaced (bs : list Box) :
  map box_id (map unplaced bs) = map box_id bs.
Proof. rewrite map_map. apply map_ext. by intros []. Qed.

Lemma box_id_imap {A} (f : nat -> A -> Box) base (xs : list A) :
  (forall k x, box_id (f k x) = base + k) ->
  map box_id (imap f xs) = seq base (length xs).
Proof.
  revert f base. induction xs as [|x xs IH]; intros f base Hf; [done|].
  cbn [imap map length seq]. f_equal; [rewrite Hf; lia|].
  apply IH. intros k y. unfold compose. rewrite Hf. lia.
Qed.

Lemma box_id_controls base (items : list descriptor) :
  map box_id (concat (imap (control_boxes base) items)) = seq base (2 * length items).
Proof.
  revert base. induction items as [|item items IH]; intros base; [done|].
  cbn [imap concat length]. rewrite map_app.
  replace (2 * S (length items)) with (2 + 2 * length items) by lia.
  rewrite (seq_app 2). f_equal.
  - unfold control_boxes, setter_of, display_of.
    destruct (in_strs _ _); cbn [map box_id seq]; repeat first [lia | progress f_equal].
  - rewrite <- IH. f_equal. f_equal. apply imap_ext. intros k x _.
    unfold compose, control_boxes, setter_of, display_of.
    destruct (in_strs _ _); repeat first [lia | progress f_equal].
Qed.

(** The run with the ids of the boxes and the ends of the lines. *)
Lemma create_rnbo_patch_ids maxpat_path dsp_name codebox_code items
    num_inputs num_outputs ins outs :
  range num_inputs = Val ins ->
  range num_outputs = Val outs ->
  exists top sub,
    create_rnbo_patch maxpat_path dsp_name codebox_code items num_inputs num_outputs
      empty_world
    = save 0 (mkWorld [top; sub] ∅) /\
    path top = maxpat_path /\
    map box_id (boxes top) = [1; 2; 3] /\
    lines top = [] /\
    map box_id (boxes sub) = seq 1 (1 + length ins + length outs + 2 * length items) /\
    lines sub =
      imap (input_line 1 2) ins ++
      imap (output_line 1 (2 + length ins)) outs ++
      concat (imap (control_lines 1 (2 + length ins + length outs)) items).
Proof.
  intros Hins Houts.
  destruct (create_rnbo_patch_run maxpat_path dsp_name codebox_code items _ _ _ _
              Hins Houts)
    as (bs1 & bs2 & bs3 & sub_lines & Hrun & Hb1 & Hb2 & Hb3 & Hl).
  cbv zeta in Hrun. eexists _, _. split; [exact Hrun|]. cbn [boxes lines path].
  split_and!; [done|done|done| |done].
  cbn [map]. rewrite !map_app.
  rewrite <- (box_id_unplaced bs1), <- (box_id_unplaced bs2), <- (box_id_unplaced bs3).
  rewrite Hb1, Hb2, Hb3, box_id_controls.
  rewrite (box_id_imap _ 2), (box_id_imap _ (2 + length ins)) by done.
  replace (1 + length ins + length outs + 2 * length items)
    with (1 + (length ins + (length outs + 2 * length items))) by lia.
  rewrite (seq_app 1), (seq_app (length ins)), (seq_app (length outs)).
  cbn [seq app Nat.add]. repeat f_equal; lia.
Qed.

(** X6: the boxes of each patcher are numbered from 1 in the order they
    are made, so no two boxes of a patcher share an id: 1 to 3 in the
    top patcher, and in the subpatcher 1 for the code box and then one
    id for each input, each output and each of the two boxes of a
    descriptor. *)
Theorem create_rnbo_patch_box_ids maxpat_path dsp_name codebox_code items
    num_inputs num_outputs ins outs :
  range num_inputs = Val ins ->
  range num_outputs = Val outs ->
  exists top sub,
    create_rnbo_patch maxpat_path dsp_name codebox_code items num_inputs num_outputs
      empty_world
    = save 0 (mkWorld [top; sub] ∅) /\
    path top = maxpat_path /\
    map box_id (boxes top) = [1; 2; 3] /\
    map box_id (boxes sub) = seq 1 (1 + length ins + length outs + 2 * length items).
Proof.
  intros Hins Houts.
  destruct (create_rnbo_patch_ids maxpat_path dsp_name codebox_code items _ _ _ _
              Hins Houts) as (top & sub & Hrun & Hp & Ht & _ & Hs & _).
  by exists top, sub.
Qed.

Lemma length_control_lines code_id base (items : list descriptor) :
  length (concat (imap (control_lines code_id base) items)) = 2 * length items.
Proof.
  revert base. induction items as [|item items IH]; intros base; [done|].
  cbn [imap concat length]. rewrite length_app. cbn [control_lines length].
  rewrite (imap_ext _ (control_lines code_id (base + 2))); [rewrite IH; lia|].
  intros k x _. unfold compose, control_lines. repeat first [lia | progress f_equal].
Qed.

Lemma Forall_imap_lookup {A B} (P : B -> Prop) (f : nat -> A -> B) (l : list A) :
  (forall k x, k < length l -> P (f k x)) -> Forall P (imap f l).
Proof.
  intros Hf. apply Forall_lookup. intros k y. rewrite list_lookup_imap.
  destruct (l !! k) as [x|] eqn:Hk; [|done]. intros [= <-].
  apply Hf. by eapply lookup_lt_Some.
Qed.

(** X7: the top patcher has no line, "ezdac~" is left unconnected; the
    subpatcher has one line for each input and each output and two for
    each descriptor, and every line goes from a box of the subpatcher
    to another box of it. *)
Theorem create_rnbo_patch_lines maxpat_path dsp_name codebox_code items
    num_inputs num_outputs ins outs :
  range num_inputs = Val ins ->
  range num_outputs = Val outs ->
  exists top sub,
    create_rnbo_patch maxpat_path dsp_name codebox_code items num_inputs num_outputs
      empty_world
    = save 0 (mkWorld [top; sub] ∅) /\
    path top = maxpat_path /\
    lines top = [] /\
    length (lines sub) = length ins + length outs + 2 * length items /\
    Forall (fun l =>
              In (fst (source l)) (map box_id (boxes sub)) /\
              In (fst (destination l)) (map box_id (boxes sub)) /\
              fst (source l) <> fst (destination l)) (lines sub).
Proof.
  intros Hins Houts.
  destruct (create_rnbo_patch_ids maxpat_path dsp_name codebox_code items _ _ _ _
              Hins Houts) as (top & sub & Hrun & Hp & _ & Ht & Hs & Hl).
  exists top, sub. split; [done|]. split; [done|]. split; [done|].
  rewrite Hs, Hl. split.
  - rewrite !length_app, !length_imap, length_control_lines. lia.
  - rewrite !Forall_app. split_and!.
    + apply Forall_imap_lookup. intros k i Hk. cbn. rewrite !in_seq. lia.
    + apply Forall_imap_lookup. intros k i Hk. cbn. rewrite !in_seq. lia.
    + apply Forall_concat. apply Forall_imap_lookup. intros k item Hk.
      unfold control_lines. repeat constructor; cbn; rewrite ?in_seq; lia.
Qed.

Lemma controls_loop_placed top sub codebox items dsk :
  exists sub' new,
    pfor items (fun item =>
         let shortname := shortname item in
         let item_type := type item in
         param <- add_textbox 1 ("set " +:+ str shortname) None [];
         value <-
           (if in_strs item_type ["button"; "checkbox"] then
              add_textbox 1 "toggle"
                (Some (mkRect (x (patching_rect param))
                              (float_sub (y (patching_rect param)) (float_of_Z 25))
                              (float_of_Z 24) (float_of_Z 24)))
                []
            else
              let min_value := min item in
              let max_value := max item in
              let init_value := init item in
              add_textbox 1 "number~"
                (Some (mkRect (x (patching_rect param))
                              (float_sub (y (patching_rect param)) (float_of_Z 25))
                              (w (patching_rect param))
                              (h (patching_rect param))))
                [("mode", JNum (Int 1)); ("sig", init_value);
                 ("minimum", min_value); ("maximum", max_value)]);
         _ <- add_line 1 value param 0 0;
         add_line 1 param codebox 0 0) (mkWorld [top; sub] dsk)
    = (Val tt, mkWorld [top; sub'] dsk) /\
    boxes sub' = boxes sub ++ new /\
    displays_placed items new.
Proof.
  revert sub. induction items as [|item items IH]; intros sub.
  - exists sub, []. by rewrite !app_nil_r.
  - cbn [pfor]. unfold pbind at 1 2 3 4.
    destruct (in_strs (type item) ["button"; "checkbox"]) eqn:Hty; cbn;
      (match goal with |- context [mkWorld [top; ?p] dsk] =>
         destruct (IH p) as (sub' & new & Hrun & Hb & Hn) end);
      cbn in Hb; eexists sub', (_ :: _ :: new); (split; [exact Hrun|]);
      rewrite Hb, <- !app_assoc; cbn [app displays_placed];
      (split; [reflexivity|]); (split; [|exact Hn]);
      unfold display_rect; rewrite Hty; reflexivity.
Qed.

(** X8: in the patch built, the display of each descriptor is at the
    x of the box of its setter and at its y less 25, 24 by 24 if it is
    a toggle and of the size of the setter if it is a number~. *)
Theorem create_rnbo_patch_display_rects maxpat_path dsp_name codebox_code items
    num_inputs num_outputs ins outs :
  range num_inputs = Val ins ->
  range num_outputs = Val outs ->
  exists top sub stubs controls,
    create_rnbo_patch maxpat_path dsp_name codebox_code items num_inputs num_outputs
      empty_world
    = save 0 (mkWorld [top; sub] ∅) /\
    path top = maxpat_path /\
    boxes sub =
      CodeboxTilde 1 (codebox_text codebox_code) (rect 200 200 400 400)
      :: stubs ++ controls /\
    length stubs = length ins + length outs /\
    displays_placed items controls.
Proof.
  intros Hins Houts.
  set (code_box := CodeboxTilde 1 (codebox_text codebox_code) (rect 200 200 400 400)).
  unfold create_rnbo_patch.
  do 6 run_step.
  erewrite pbind_ok; [|unfold lift; rewrite Hins; reflexivity].
  match goal with |- context [pbind (pfor ins _) _ (mkWorld [?t; ?s] ?d)] =>
    set (top := t);
    destruct (inputs_loop t s code_box ins d)
      as (sub1 & new1 & Hrun1 & Hp1 & Hb1 & Hn1 & _) end.
  erewrite pbind_ok; [|exact Hrun1].
  erewrite pbind_ok; [|unfold lift; rewrite Houts; reflexivity].
  destruct (outputs_loop top sub1 code_box outs ∅)
    as (sub2 & new2 & Hrun2 & Hp2 & Hb2 & Hn2 & _).
  erewrite pbind_ok; [|exact Hrun2].
  destruct (controls_loop_placed top sub2 code_box items ∅)
    as (sub3 & new3 & Hrun3 & Hb3 & Hn3).
  erewrite pbind_ok; [|exact Hrun3].
  cbn in Hp1, Hb1.
  assert (Hlen1 : length new1 = length ins)
    by (by rewrite <- (length_map unplaced), Hn1, length_imap).
  assert (Hlen2 : length new2 = length outs)
    by (by rewrite <- (length_map unplaced), Hn2, length_imap).
  exists top, sub3, (new1 ++ new2), new3. split_and!.
  - done.
  - done.
  - by rewrite Hb3, Hb2, Hb1, <- !app_assoc.
  - rewrite length_app. lia.
  - done.
Qed.

End Facts.

(** C7, as stated, fails: the code box does not hold a code text of two
    lines as it was given, but with a carriage return before the line
    feed. *)
Lemma code_text_not_verbatim :
  exists top code r lines,
    create_rnbo_patch (F := ZFloat) (H := row_host) "osc.maxpat" "osc" two_lines []
      (JNum (Int 0)) (JNum (Int 0)) empty_world
    = save (F := ZFloat) (H := row_host) 0
        (mkWorld [top; mkPatcher "" [CodeboxTilde 1 code r] lines] ∅) /\
    code = "a = in1;" +:+ String "013"%char (String "010"%char "out1 = a;") /\
    code <> two_lines.
Proof.
  eexists _, _, _, _. split; [reflexivity|]. split; [reflexivity|]. discriminate.
Qed.


(** C3 on two inputs and one output. *)
Lemma create_rnbo_patch_stubs_witness :
  exists top sub,
    create_rnbo_patch (F := ZFloat) (H := row_host) "osc.maxpat" "osc" "out1 = in1;"
      [freq_descriptor; gate_descriptor] (JNum (Int 2)) (JNum (Int 1)) empty_world
    = save (F := ZFloat) (H := row_host) 0 (mkWorld [top; sub] ∅) /\
    path top = "osc.maxpat" /\
    head (boxes sub) = Some (CodeboxTilde 1 "out1 = in1;" (rect 200 200 400 400)) /\
    Z.of_nat (length (List.filter is_input_stub (boxes sub))) = 2%Z /\
    map box_tag (List.filter is_input_stub (boxes sub)) =
      [(2, Some "in~ 1"); (3, Some "in~ 2")] /\
    (forall i, (0 <= i < 2)%Z ->
       In (mkLine (2 + Z.to_nat i, 0%Z) (1, i)) (lines sub) /\
       forall l, In l (lines sub) -> fst (source l) = 2 + Z.to_nat i ->
                 l = mkLine (2 + Z.to_nat i, 0%Z) (1, i)) /\
    Z.of_nat (length (List.filter is_output_stub (boxes sub))) = 1%Z /\
    map box_tag (List.filter is_output_stub (boxes sub)) = [(4, Some "out~ 1")] /\
    (forall i, (0 <= i < 1)%Z ->
       In (mkLine (1, i) (2 + Z.to_nat 2 + Z.to_nat i, 0%Z)) (lines sub) /\
       forall l, In l (lines sub) ->
                 fst (destination l) = 2 + Z.to_nat 2 + Z.to_nat i ->
                 l = mkLine (1, i) (2 + Z.to_nat 2 + Z.to_nat i, 0%Z)).
Proof.
  exact (create_rnbo_patch_stubs (F := ZFloat) (H := row_host)
           "osc.maxpat" "osc" "out1 = in1;" [freq_descriptor; gate_descriptor] 2 1
           ltac:(lia) ltac:(lia)).
Defined.

(** X6 on two inputs, one output and two descriptors. *)
Lemma create_rnbo_patch_box_ids_witness :
  exists top sub,
    create_rnbo_patch (F := ZFloat) (H := row_host) "osc.maxpat" "osc" "out1 = in1;"
      [freq_descriptor; gate_descriptor] (JNum (Int 2)) (JNum (Int 1)) empty_world
    = save (F := ZFloat) (H := row_host) 0 (mkWorld [top; sub] ∅) /\
    path top = "osc.maxpat" /\
    map box_id (boxes top) = [1; 2; 3] /\
    map box_id (boxes sub) = [1; 2; 3; 4; 5; 6; 7; 8].
Proof.
  exact (create_rnbo_patch_box_ids (F := ZFloat) (H := row_host)
           "osc.maxpat" "osc" "out1 = in1;" [freq_descriptor; gate_descriptor]
           (JNum (Int 2)) (JNum (Int 1)) (seqZ 0 2) (seqZ 0 1) eq_refl eq_refl).
Defined.

(** X7 on the same: seven lines. *)
Lemma create_rnbo_patch_lines_witness :
  exists top sub,
    create_rnbo_patch (F := ZFloat) (H := row_host) "osc.maxpat" "osc" "out1 = in1;"
      [freq_descriptor; gate_descriptor] (JNum (Int 2)) (JNum (Int 1)) empty_world
    = save (F := ZFloat) (H := row_host) 0 (mkWorld [top; sub] ∅) /\
    path top = "osc.maxpat" /\
    lines top = [] /\
    length (lines sub) = 7 /\
    Forall (fun l =>
              In (fst (source l)) (map box_id (boxes sub)) /\
              In (fst (destination l)) (map box_id (boxes sub)) /\
              fst (source l) <> fst (destination l)) (lines sub).
Proof.
  exact (create_rnbo_patch_lines (F := ZFloat) (H := row_host)
           "osc.maxpat" "osc" "out1 = in1;" [freq_descriptor; gate_descriptor]
           (JNum (Int 2)) (JNum (Int 1)) (seqZ 0 2) (seqZ 0 1) eq_refl eq_refl).
Defined.

(** X8 on the same: a number~ for the slider and a toggle for the
    button. *)
Lemma create_rnbo_patch_display_rects_witness :
  exists top sub stubs controls,
    create_rnbo_patch (F := ZFloat) (H := row_host) "osc.maxpat" "osc" "out1 = in1;"
      [freq_descriptor; gate_descriptor] (JNum (Int 2)) (JNum (Int 1)) empty_world
    = save (F := ZFloat) (H := row_host) 0 (mkWorld [top; sub] ∅) /\
    path top = "osc.maxpat" /\
    boxes sub =
      CodeboxTilde 1 "out1 = in1;" (rect 200 200 400 400) :: stubs ++ controls /\
    length stubs = 3 /\
    displays_placed [freq_descriptor; gate_descriptor] controls.
Proof.
  exact (create_rnbo_patch_display_rects (F := ZFloat) (H := row_host)
           "osc.maxpat" "osc" "out1 = in1;" [freq_descriptor; gate_descriptor]
           (JNum (Int 2)) (JNum (Int 1)) (seqZ 0 2) (seqZ 0 1) eq_refl eq_refl).
Defined.

(** X12 on the manifest [[]]. *)
Lemma gen_faust_rnbo_not_object_witness :
  exists e,
    (e = TypeError \/ e = AttributeError) /\
    gen_faust_rnbo (F := ZFloat) (H := row_host) "osc" "out1 = in1;" (JArr [])
      "osc.maxpat" empty_world = (Raise e, empty_world).
Proof.
  apply (gen_faust_rnbo_not_object (F := ZFloat) (H := row_host)
           "osc" "out1 = in1;" (JArr []) "osc.maxpat" empty_world).
  intros fields. discriminate.
Defined.

(** X15 on a slider after a button: the slider has no "min". *)
Lemma untyped_create_key_error_witness :
  exists σ',
    Untyped.create_rnbo_patch (F := ZFloat) (H := row_host) "osc.maxpat" "osc"
      "out1 = in1;"
      (JArr [JObj [("shortname", JStr "gate"); ("type", JStr "button")];
             JObj Untyped.gain_without_min])
      (JNum (Int 2)) (JNum (Int 1)) empty_world
    = (Raise KeyError, σ') /\
    disk σ' = ∅.
Proof.
  exact (untyped_create_key_error (F := ZFloat) (H := row_host)
           "osc.maxpat" "osc" "out1 = in1;"
           [[("shortname", JStr "gate"); ("type", JStr "button")];
            Untyped.gain_without_min]
           (JNum (Int 2)) (JNum (Int 1)) (seqZ 0 2) (seqZ 0 1) empty_world
           eq_refl eq_refl).
Defined.

End MaxFacts.

(** ** The extractor and its argument *)

Module HeapFacts.
Import Py PyFacts.
Import Heap.
Local Open Scope prog_scope.

Lemma json_ind_deep (P : json -> Prop) :
  P JNone -> (forall b, P (JBool b)) -> (forall n, P (JNum n)) ->
  (forall s, P (JStr s)) ->
  (forall elems, Forall P elems -> P (JArr elems)) ->
  (forall items, Forall (fun kv => P (snd kv)) items -> P (JObj items)) ->
  forall j, P j.
Proof.
  intros HNone HBool HNum HStr HArr HObj. fix IH 1.
  intros [|b|n|s|elems|items];
    [apply HNone|apply HBool|apply HNum|apply HStr| |].
  - apply HArr. induction elems as [|e elems IHe]; constructor; [apply IH|apply IHe].
  - apply HObj. induction items as [|[k v] items IHi]; constructor; [apply IH|apply IHi].
Qed.

Lemma repr_mono hs hs' v j : hs ⊆ hs' -> repr hs v j -> repr hs' v j.
Proof.
  intros Hsub. revert v. induction j as [|b|n|s|elems IH|items IH] using json_ind_deep;
    intros v Hv;
    inversion Hv as [| | | |l vs js Hl Hvs|l vitems jitems Hl Hitems]; subst;
    try constructor.
  - eapply repr_arr; [by eapply lookup_weaken|].
    clear Hv Hl. revert vs Hvs.
    induction IH as [|e elems He _ IHe]; intros vs Hvs;
      inversion Hvs; subst; constructor; auto.
  - eapply repr_obj; [by eapply lookup_weaken|].
    clear Hv Hl. revert vitems Hitems.
    induction IH as [|e elems He _ IHe]; intros vs Hvs;
      inversion Hvs as [|? ? ? ? [? ?]]; subst; constructor; auto.
Qed.

Lemma repr_eq_str hs v j s : repr hs v j -> Heap.eq_str v s = Py.eq_str j s.
Proof. by inversion 1. Qed.

Lemma repr_in_strs hs v j ss : repr hs v j -> Heap.in_strs v ss = Py.in_strs j ss.
Proof.
  intros Hv. unfold Heap.in_strs, Py.in_strs.
  induction ss as [|s ss IH]; cbn; [done|]. by rewrite (repr_eq_str _ _ _ _ Hv), IH.
Qed.

Lemma repr_lookup_key hs key vitems jitems :
  Forall2 (fun vi ji => fst vi = fst ji /\ repr hs (snd vi) (snd ji)) vitems jitems ->
  match lookup_key key jitems with
  | Some j => exists v, lookup_key key vitems = Some v /\ repr hs v j
  | None => lookup_key key vitems = None
  end.
Proof.
  induction 1 as [|[k v] [k' j] vitems jitems [Hk Hv] _ IH]; cbn; [done|].
  cbn in Hk, Hv. subst k'. destruct (String.eqb k key); [eauto|done].
Qed.

(** The operations of the script do the same on an object graph as on
    the document it stands for, and leave the store as it is. *)
Lemma contains_repr hs h v j key :
  hs ⊆ h -> repr hs v j ->
  Heap.contains v key h = (Py.contains j key, h).
Proof.
  intros Hsub Hv. inversion Hv as [| | | |l vs js Hl Hvs|l vitems jitems Hl Hitems];
    subst; try done.
  - cbn. rewrite (lookup_weaken _ _ _ _ Hl Hsub). do 2 f_equal.
    clear Hl Hv. induction Hvs as [|v j vs js Hv _ IH]; cbn; [done|].
    by rewrite (repr_eq_str _ _ _ _ Hv), IH.
  - cbn. rewrite (lookup_weaken _ _ _ _ Hl Hsub). do 2 f_equal.
    pose proof (repr_lookup_key hs key _ _ Hitems) as Hk.
    destruct (lookup_key key jitems).
    + destruct Hk as (w & -> & _). done.
    + by rewrite Hk.
Qed.

Lemma getitem_repr hs h v j key :
  hs ⊆ h -> repr hs v j ->
  exists r, Heap.getitem v key h = (r, h) /\
    match Py.getitem j key with
    | Val x => exists y, r = Val y /\ repr hs y x
    | Raise e => r = Raise e
    | OutOfFuel => False
    end.
Proof.
  intros Hsub Hv. inversion Hv as [| | | |l vs js Hl Hvs|l vitems jitems Hl Hitems];
    subst; cbn; try (by eexists).
  - unfold Heap.getitem. cbn. rewrite (lookup_weaken _ _ _ _ Hl Hsub). by eexists.
  - unfold Heap.getitem. cbn. rewrite (lookup_weaken _ _ _ _ Hl Hsub).
    pose proof (repr_lookup_key hs key _ _ Hitems) as Hk.
    destruct (lookup_key key jitems).
    + destruct Hk as (w & -> & Hw). eauto.
    + rewrite Hk. by eexists.
Qed.

Lemma get_repr hs h v j key dv dj :
  hs ⊆ h -> repr hs v j -> repr hs dv dj ->
  exists r, Heap.get v key dv h = (r, h) /\
    match Py.get j key dj with
    | Val x => exists y, r = Val y /\ repr hs y x
    | Raise e => r = Raise e
    | OutOfFuel => False
    end.
Proof.
  intros Hsub Hv Hd. inversion Hv as [| | | |l vs js Hl Hvs|l vitems jitems Hl Hitems];
    subst; cbn; try (by eexists).
  - unfold Heap.get. cbn. rewrite (lookup_weaken _ _ _ _ Hl Hsub). by eexists.
  - unfold Heap.get. cbn. rewrite (lookup_weaken _ _ _ _ Hl Hsub).
    pose proof (repr_lookup_key hs key _ _ Hitems) as Hk.
    destruct (lookup_key key jitems).
    + destruct Hk as (w & -> & Hw). eauto.
    + rewrite Hk. eauto.
Qed.

Lemma iter_repr hs h v j :
  hs ⊆ h -> repr hs v j ->
  exists r, Heap.iter v h = (r, h) /\
    match Py.iter j with
    | Val xs => exists ys, r = Val ys /\ Forall2 (repr hs) ys xs
    | Raise e => r = Raise e
    | OutOfFuel => False
    end.
Proof.
  intros Hsub Hv. inversion Hv as [| | | |l vs js Hl Hvs|l vitems jitems Hl Hitems];
    subst; cbn; try (by eexists).
  - eexists. split; [done|]. eexists. split; [done|].
    induction (list_ascii_of_string s); constructor; [constructor|done].
  - unfold Heap.iter. cbn. rewrite (lookup_weaken _ _ _ _ Hl Hsub). eauto.
  - unfold Heap.iter. cbn. rewrite (lookup_weaken _ _ _ _ Hl Hsub).
    eexists. split; [done|]. eexists. split; [done|].
    clear Hl Hv. induction Hitems as [|[k v] [k' j] ? ? [Hk _] _ IH]; cbn; [done|].
    cbn in Hk. subst. constructor; [constructor|done].
Qed.

Lemma fresh_None (h : heap) : h !! fresh (dom h) = None.
Proof. apply not_elem_of_dom, is_fresh. Qed.

Lemma grows_refl he hs0 : hs0 ⊆ he -> grows he hs0 hs0 he.
Proof. intros. split_and!; auto. Qed.

Lemma grows_update he hs0 hs h l o :
  grows he hs0 hs h -> he !! l = None -> hs !! l = None ->
  grows he hs0 hs (<[l := o]> h).
Proof.
  intros (H1 & H2 & H3 & H4) Hhe Hhs. split_and!; auto.
  - by apply insert_subseteq_r.
  - by apply insert_subseteq_r.
Qed.

Lemma grows_None he hs0 hs h l :
  grows he hs0 hs h -> h !! l = None -> he !! l = None /\ hs !! l = None.
Proof.
  intros (H1 & H2 & H3 & H4) Hl. split.
  - destruct (he !! l) eqn:E; [|done]. by rewrite (lookup_weaken _ _ _ _ E H1) in Hl.
  - destruct (hs !! l) eqn:E; [|done]. by rewrite (lookup_weaken _ _ _ _ E H3) in Hl.
Qed.

Lemma grows_alloc he hs0 hs h l o :
  grows he hs0 hs h -> h !! l = None ->
  grows he hs0 (<[l := o]> hs) (<[l := o]> h).
Proof.
  intros Hg Hl. destruct (grows_None _ _ _ _ _ Hg Hl) as [Hhe Hhs].
  destruct Hg as (H1 & H2 & H3 & H4). split_and!.
  - by apply insert_subseteq_r.
  - apply insert_subseteq_r; [|done].
    destruct (hs0 !! l) eqn:E; [|done]. by rewrite (lookup_weaken _ _ _ _ E H2) in Hhs.
  - by apply insert_mono.
  - intros l' Hl'. destruct (decide (l = l')) as [<-|Hne]; [by right|].
    rewrite lookup_insert_ne in Hl' by done. auto.
Qed.

Lemma grows_call he hs0 hs h hs1 h1 :
  grows he hs0 hs h -> grows h hs hs1 h1 -> grows he hs0 hs1 h1.
Proof.
  intros (H1 & H2 & H3 & H4) (G1 & G2 & G3 & G4). split_and!.
  - by etrans.
  - by etrans.
  - done.
  - intros l Hl. destruct (G4 l Hl) as [Hs|Hn]; [auto|]. right.
    destruct (he !! l) eqn:E; [|done]. by rewrite (lookup_weaken _ _ _ _ E H1) in Hn.
Qed.

Lemma Forall2_repr_mono hs hs' vs js :
  hs ⊆ hs' -> Forall2 (repr hs) vs js -> Forall2 (repr hs') vs js.
Proof.
  intros Hsub Hvs. eapply Forall2_impl; [exact Hvs|].
  intros v j. by apply repr_mono.
Qed.

(** A descriptor is made and appended. *)
Lemma push_descriptor he hs0 l0 hs h acc a b c d e f dj :
  acc_inv he hs0 l0 hs h acc ->
  repr hs a (Info.shortname dj) -> repr hs b (Info.type dj) ->
  repr hs c (Info.init dj) -> repr hs d (Info.min dj) ->
  repr hs e (Info.max dj) -> repr hs f (Info.step dj) ->
  exists h' hs',
    pbind (new_descriptor a b c d e f) (fun x => append (VRef l0) x) h = (Val tt, h') /\
    hs ⊆ hs' /\ acc_inv he hs0 l0 hs' h' (acc ++ [dj]).
Proof.
  intros (Hg & Hhe & Hhs & vs & Hl0 & Hvs) Ha Hb Hc Hd He Hf.
  set (l := fresh (dom h)).
  set (o := ODict [("shortname", a); ("type", b); ("init", c); ("min", d);
                   ("max", e); ("step", f)]).
  assert (Hl : h !! l = None) by apply fresh_None.
  assert (Hne : l <> l0) by (intros ->; congruence).
  destruct (grows_None _ _ _ _ _ Hg Hl) as [Hlhe Hlhs].
  assert (Hsub : hs ⊆ <[l := o]> hs) by (by apply insert_subseteq).
  exists (<[l0 := OList (vs ++ [VRef l])]> (<[l := o]> h)), (<[l := o]> hs).
  split_and!; [|done|].
  - unfold pbind, new_descriptor, alloc, append. fold l o.
    by rewrite lookup_insert_ne, Hl0.
  - split_and!.
    + apply grows_update; [by apply grows_alloc|done|by rewrite lookup_insert_ne].
    + done.
    + by rewrite lookup_insert_ne.
    + exists (vs ++ [VRef l]). split; [by rewrite lookup_insert_eq|].
      rewrite map_app. apply Forall2_app; [by eapply Forall2_repr_mono|].
      constructor; [|constructor].
      eapply repr_obj; [by rewrite lookup_insert_eq|].
      repeat constructor; cbn; by eapply repr_mono.
Qed.

Lemma get_dict (h : heap) l items key default :
  h !! l = Some (ODict items) ->
  get (VRef l) key default h = (Val (from_option id default (lookup_key key items)), h).
Proof. intros Hl. unfold get. cbn. by rewrite Hl. Qed.

Lemma contains_dict (h : heap) l items key :
  h !! l = Some (ODict items) ->
  contains (VRef l) key h = (Val (bool_decide (is_Some (lookup_key key items))), h).
Proof. intros Hl. unfold contains. cbn. by rewrite Hl. Qed.

Lemma getitem_dict (h : heap) l items key v :
  h !! l = Some (ODict items) -> lookup_key key items = Some v ->
  getitem (VRef l) key h = (Val v, h).
Proof. intros Hl Hk. unfold getitem. cbn. by rewrite Hl, Hk. Qed.

Lemma repr_field hs vfields fields key dv dj :
  Forall2 (fun vi ji => fst vi = fst ji /\ repr hs (snd vi) (snd ji)) vfields fields ->
  repr hs dv dj ->
  repr hs (from_option id dv (lookup_key key vfields)) (Info.field fields key dj).
Proof.
  intros Hf Hd. unfold Info.field.
  pose proof (repr_lookup_key hs key _ _ Hf) as Hk.
  destruct (lookup_key key fields).
  - by destruct Hk as (v & -> & Hv).
  - by rewrite Hk.
Qed.

(** The own part of the loop body on a dict: it appends what
    [Info.control_of] says. *)
Lemma own_info_dict_refines he hs0 l0 hs h acc ly vfields fields :
  acc_inv he hs0 l0 hs h acc ->
  hs !! ly = Some (ODict vfields) ->
  Forall2 (fun vi ji => fst vi = fst ji /\ repr hs (snd vi) (snd ji)) vfields fields ->
  exists h' hs',
    own_info (VRef l0) (VRef ly) h = (Val tt, h') /\
    hs ⊆ hs' /\ acc_inv he hs0 l0 hs' h' (acc ++ Info.control_of fields).
Proof.
  intros Hinv Hly Hf.
  assert (Hsub : hs ⊆ h) by (destruct Hinv as ((_ & _ & ? & _) & _); done).
  pose proof (lookup_weaken _ _ _ _ Hly Hsub) as Hly'.
  unfold own_info.
  rewrite (pbind_ok _ _ _ _ _ (get_dict _ _ _ "shortname" (VStr "") Hly')).
  rewrite (pbind_ok _ _ _ _ _ (get_dict _ _ _ "type" (VStr "") Hly')).
  pose proof (repr_field hs _ _ "shortname" _ _ Hf (repr_str hs "")) as Hsn.
  pose proof (repr_field hs _ _ "type" _ _ Hf (repr_str hs "")) as Hty.
  pose proof (repr_field hs _ _ "init" _ _ Hf (repr_num hs (Int 0))) as Hinit.
  rewrite (repr_in_strs _ _ _ _ Hty). unfold Info.control_of.
  destruct (Py.in_strs _ _).
  { apply push_descriptor; try done; apply repr_num. }
  rewrite (pbind_ok _ _ _ _ _ (contains_dict _ _ _ "min" Hly')).
  pose proof (repr_lookup_key hs "min" _ _ Hf) as Hmin.
  destruct (lookup_key "min" fields) as [jmin|];
    [destruct Hmin as (vmin & Hmin & Hrmin)|]; rewrite Hmin; cbn [bool_decide decide_rel];
    [|exists h, hs; rewrite app_nil_r; by split_and!].
  rewrite bool_decide_eq_true_2 by eauto.
  rewrite (pbind_ok _ _ _ _ _ (contains_dict _ _ _ "max" Hly')).
  pose proof (repr_lookup_key hs "max" _ _ Hf) as Hmax.
  destruct (lookup_key "max" fields) as [jmax|];
    [destruct Hmax as (vmax & Hmax & Hrmax)|]; rewrite Hmax.
  2: { rewrite bool_decide_eq_false_2 by (by intros [? ?]).
       exists h, hs. rewrite app_nil_r. by split_and!. }
  rewrite bool_decide_eq_true_2 by eauto.
  rewrite (pbind_ok _ _ _ _ _ (contains_dict _ _ _ "step" Hly')).
  pose proof (repr_lookup_key hs "step" _ _ Hf) as Hstep.
  destruct (lookup_key "step" fields) as [jstep|];
    [destruct Hstep as (vstep & Hstep & Hrstep)|]; rewrite Hstep.
  2: { rewrite bool_decide_eq_false_2 by (by intros [? ?]).
       exists h, hs. rewrite app_nil_r. by split_and!. }
  rewrite bool_decide_eq_true_2 by eauto.
  rewrite (pbind_ok _ _ _ _ _ (get_dict _ _ _ "init" (VNum (Int 0)) Hly')).
  rewrite (pbind_ok _ _ _ _ _ (getitem_dict _ _ _ "min" _ Hly' Hmin)).
  rewrite (pbind_ok _ _ _ _ _ (getitem_dict _ _ _ "max" _ Hly' Hmax)).
  rewrite (pbind_ok _ _ _ _ _ (getitem_dict _ _ _ "step" _ Hly' Hstep)).
  by apply push_descriptor.
Qed.

Lemma own_info_other_refines hs h il y x :
  hs ⊆ h -> repr hs y x -> (forall fields, x <> JObj fields) ->
  own_info il y h = (Raise AttributeError, h).
Proof.
  intros Hsub Hy Hx. unfold own_info.
  destruct (get_repr hs h y x "shortname" (VStr "") (JStr "") Hsub Hy (repr_str hs ""))
    as (r & Hr & Hm).
  destruct x; cbn in Hm; subst; try (by apply pbind_raise).
  by destruct (Hx items).
Qed.

Local Abbreviation heap_body fuel il :=
  (fun item =>
     pbind (own_info il item) (fun _ =>
     pbind (contains item "items") (fun has_items =>
       if has_items then
         pbind (getitem item "items") (fun sub_items =>
         pbind (extract_from_ui fuel sub_items) (fun sub_list =>
         extend il sub_list))
       else ret tt))).

Local Abbreviation pure_body fuel :=
  (fun info_list item =>
     bind (Info.own_info item info_list) (fun info_list =>
     bind (Py.contains item "items") (fun has_items =>
       if has_items then
         bind (Py.getitem item "items") (fun sub_items =>
         bind (Info.extract_from_ui fuel sub_items) (fun sub_list =>
         Val (info_list ++ sub_list)))
       else Val info_list))).

Lemma acc_inv_grows he hs0 l0 hs h acc :
  acc_inv he hs0 l0 hs h acc -> grows he hs0 hs h.
Proof. by intros (? & _). Qed.

Lemma extend_refines he hs0 l0 hs1 h1 acc hs2 h2 l1 ws ds :
  acc_inv he hs0 l0 hs1 h1 acc ->
  grows h1 hs1 hs2 h2 ->
  h2 !! l1 = Some (OList ws) ->
  Forall2 (repr hs2) ws (map descriptor_json ds) ->
  exists h3,
    extend (VRef l0) (VRef l1) h2 = (Val tt, h3) /\
    acc_inv he hs0 l0 hs2 h3 (acc ++ ds).
Proof.
  intros (Hg & Hhe & Hhs & vs & Hl0 & Hvs) Hg2 Hl1 Hws.
  pose proof Hg2 as (G1 & G2 & G3 & G4).
  assert (Hl0' : h2 !! l0 = Some (OList vs)) by (by eapply lookup_weaken).
  assert (Hhs2 : hs2 !! l0 = None).
  { destruct (hs2 !! l0) eqn:E; [|done].
    destruct (G4 l0) as [[? ?]|?]; [by eauto|congruence..]. }
  exists (<[l0 := OList (vs ++ ws)]> h2). split.
  - unfold extend, pbind, iter. cbn. by rewrite Hl1, Hl0'.
  - split_and!; [|done|done|].
    + apply grows_update; [by eapply grows_call|done..].
    + exists (vs ++ ws). split; [by rewrite lookup_insert_eq|].
      rewrite map_app. apply Forall2_app; [by eapply Forall2_repr_mono|done].
Qed.

Lemma body_refines fuel he hs0 l0 hs h acc y x :
  refines_at fuel ->
  acc_inv he hs0 l0 hs h acc ->
  repr hs y x ->
  exists r h' hs',
    heap_body fuel (VRef l0) y h = (r, h') /\
    grows he hs0 hs' h' /\ hs ⊆ hs' /\
    match pure_body fuel acc x with
    | Val acc' => r = Val tt /\ acc_inv he hs0 l0 hs' h' acc'
    | Raise e => r = Raise e
    | OutOfFuel => r = OutOfFuel
    end.
Proof.
  intros IH Hinv Hy.
  pose proof (acc_inv_grows _ _ _ _ _ _ Hinv) as Hg.
  assert (Hsub : hs ⊆ h) by (by destruct Hg as (_ & _ & ? & _)).
  destruct x as [| | | | |fields].
  1-5: rewrite (pbind_raise _ _ _ _ _ (own_info_other_refines hs h _ _ _ Hsub Hy
                  ltac:(discriminate)));
       exists (Raise AttributeError), h, hs; by split_and!.
  inversion Hy as [| | | | |ly vfields ? Hly Hf]; subst.
  destruct (own_info_dict_refines _ _ _ _ _ _ _ _ _ Hinv Hly Hf)
    as (h1 & hs1 & Hown & Hsub1 & Hinv1).
  rewrite (pbind_ok _ _ _ _ _ Hown), InfoFacts.own_info_dict. cbn [bind Py.contains].
  pose proof (acc_inv_grows _ _ _ _ _ _ Hinv1) as Hg1.
  assert (Hsub1' : hs1 ⊆ h1) by (by destruct Hg1 as (_ & _ & ? & _)).
  assert (Hly1 : h1 !! ly = Some (ODict vfields)).
  { eapply lookup_weaken; [|exact Hsub1']. by eapply lookup_weaken. }
  rewrite (pbind_ok _ _ _ _ _ (contains_dict _ _ _ "items" Hly1)).
  pose proof (repr_lookup_key hs "items" _ _ Hf) as Hk.
  unfold Py.getitem.
  destruct (lookup_key "items" fields) as [jsub|].
  2: { rewrite Hk, !bool_decide_eq_false_2 by (by intros [? ?]).
       exists (Val tt), h1, hs1. by split_and!. }
  destruct Hk as (vsub & Hk & Hvsub).
  rewrite Hk, !bool_decide_eq_true_2 by eauto. cbn [bind].
  rewrite (pbind_ok _ _ _ _ _ (getitem_dict _ _ _ "items" _ Hly1 Hk)).
  destruct (IH jsub vsub hs1 h1 Hsub1' (repr_mono _ _ _ _ Hsub1 Hvsub))
    as (r2 & h2 & hs2 & Hrun2 & Hg2 & Hres).
  assert (Hsub2 : hs ⊆ hs2) by (etrans; [done|by destruct Hg2 as (_ & ? & _)]).
  unfold returns_repr in Hres.
  destruct (Info.extract_from_ui fuel jsub) as [ds| |]; cbn [bind].
  - destruct Hres as (l1 & ws & -> & Hl1 & _ & _ & Hws).
    rewrite (pbind_ok _ _ _ _ _ Hrun2).
    destruct (extend_refines _ _ _ _ _ _ _ _ _ _ _ Hinv1 Hg2 Hl1 Hws)
      as (h3 & Hext & Hinv3).
    exists (Val tt), h3, hs2. split_and!; try done.
    by eapply acc_inv_grows.
  - subst r2. rewrite (pbind_raise _ _ _ _ _ Hrun2).
    exists (Raise e), h2, hs2. split_and!; try done. by eapply grows_call.
  - subst r2. rewrite (pbind_out_of_fuel _ _ _ _ Hrun2).
    exists OutOfFuel, h2, hs2. split_and!; try done. by eapply grows_call.
Qed.

Lemma loop_refines fuel he hs0 l0 ys xs :
  refines_at fuel ->
  forall hs h acc,
    Forall2 (repr hs) ys xs ->
    acc_inv he hs0 l0 hs h acc ->
    exists r h' hs',
      pfor ys (heap_body fuel (VRef l0)) h = (r, h') /\
      grows he hs0 hs' h' /\
      match for_each xs acc (pure_body fuel) with
      | Val acc' => r = Val tt /\ acc_inv he hs0 l0 hs' h' acc'
      | Raise e => r = Raise e
      | OutOfFuel => r = OutOfFuel
      end.
Proof.
  intros IH. revert xs. induction ys as [|y ys IHys]; intros xs hs h acc Hys Hinv;
    inversion Hys as [|? x ? xs' Hy Hys']; subst.
  - exists (Val tt), h, hs. split_and!; try done. by eapply acc_inv_grows.
  - cbn [pfor for_each].
    destruct (body_refines fuel _ _ _ _ _ _ _ _ IH Hinv Hy)
      as (r1 & h1 & hs1 & Hrun1 & Hg1 & Hsub1 & Hres1).
    destruct (pure_body fuel acc x) as [acc1| |]; cbn [bind].
    + destruct Hres1 as [-> Hinv1]. rewrite (pbind_ok _ _ _ _ _ Hrun1).
      apply (IHys xs' hs1 h1 acc1); [by eapply Forall2_repr_mono|done].
    + subst r1. rewrite (pbind_raise _ _ _ _ _ Hrun1). by exists (Raise e), h1, hs1.
    + subst r1. rewrite (pbind_out_of_fuel _ _ _ _ Hrun1). by exists OutOfFuel, h1, hs1.
Qed.

(** The extractor on an object graph does what it does on the document,
    and leaves the objects it found as they were. *)
Lemma extract_from_ui_refines fuel : refines_at fuel.
Proof.
  induction fuel as [|fuel IH]; intros j v hs0 he Hsub Hv.
  - exists OutOfFuel, he, hs0. split_and!; [done|by apply grows_refl|done].
  - cbn [extract_from_ui Info.extract_from_ui].
    set (l0 := fresh (dom he)).
    assert (Hl0 : he !! l0 = None) by apply fresh_None.
    assert (Hinv : acc_inv he hs0 l0 hs0 (<[l0 := OList []]> he) []).
    { split_and!.
      - apply grows_update; [by apply grows_refl|done|].
        destruct (hs0 !! l0) eqn:E; [|done]. by rewrite (lookup_weaken _ _ _ _ E Hsub) in Hl0.
      - done.
      - destruct (hs0 !! l0) eqn:E; [|done]. by rewrite (lookup_weaken _ _ _ _ E Hsub) in Hl0.
      - exists []. split; [by rewrite lookup_insert_eq|constructor]. }
    pose proof (acc_inv_grows _ _ _ _ _ _ Hinv) as Hg.
    assert (Hsub' : hs0 ⊆ <[l0 := OList []]> he) by (by destruct Hg as (_ & _ & ? & _)).
    unfold pbind at 1. unfold alloc at 1. fold l0.
    destruct (iter_repr hs0 _ v j Hsub' Hv) as (ri & Hiter & Hres).
    destruct (Py.iter j) as [xs| |]; cbn [bind]; [|subst ri|done].
    2: { rewrite (pbind_raise _ _ _ _ _ Hiter). by eexists _, _, hs0. }
    destruct Hres as (ys & -> & Hys).
    rewrite (pbind_ok _ _ _ _ _ Hiter).
    destruct (loop_refines fuel he hs0 l0 ys xs IH _ _ _ Hys Hinv)
      as (r & h' & hs' & Hrun & Hg' & Hres).
    destruct (for_each xs [] (pure_body fuel)) as [ds| |].
    + destruct Hres as [-> (_ & _ & Hhs' & ws & Hws & Hrepr)].
      rewrite (pbind_ok _ _ _ _ _ Hrun).
      exists (Val (VRef l0)), h', hs'. split_and!; [done..|].
      by exists l0, ws.
    + subst r. rewrite (pbind_raise _ _ _ _ _ Hrun). by exists (Raise e), h', hs'.
    + subst r. rewrite (pbind_out_of_fuel _ _ _ _ Hrun). by exists OutOfFuel, h', hs'.
Qed.

(** C8: on a store in which [json_data] is the object graph of the
    manifest [j], the call returns or raises as [Info.extract_items_info]
    does on [j]; every object that was in the store is in it afterwards,
    unchanged, so [json_data] is still the graph of [j]; the list
    returned stands for the descriptors. *)
Theorem extract_items_info_frame h json_data j fuel :
  repr h json_data j ->
  depth j <= fuel ->
  exists r h',
    extract_items_info fuel json_data h = (r, h') /\
    h ⊆ h' /\
    repr h' json_data j /\
    match Info.extract_items_info j with
    | Val ds => exists res, r = Val res /\ repr h' res (JArr (map descriptor_json ds))
    | Raise e => r = Raise e
    | OutOfFuel => False
    end.
Proof.
  intros Hj Hfuel.
  pose proof (InfoFacts.extract_items_info_total j) as Htotal.
  unfold extract_items_info, Info.extract_items_info in *.
  pose proof (contains_repr h h json_data j "ui" (reflexivity _) Hj) as Hc.
  destruct (Py.contains j "ui") as [[]|e|]; cbn [bind] in *.
  - rewrite (pbind_ok _ _ _ _ _ Hc).
    destruct (getitem_repr h h json_data j "ui" (reflexivity _) Hj) as (rg & Hg & Hres).
    pose proof (InfoFacts.getitem_depth j "ui") as Hd.
    destruct (Py.getitem j "ui") as [ui|e|]; cbn [bind] in *; [|subst rg|done].
    + destruct Hres as (vui & -> & Hui). specialize (Hd ui eq_refl).
      destruct (extract_from_ui_refines fuel ui vui h h (reflexivity _) Hui)
        as (r & h' & hs' & Hrun & (Hsub & _ & Hsub' & _) & Hret).
      rewrite (InfoFacts.extract_from_ui_fuel _ fuel) in Htotal |- * by lia.
      exists r, h'. rewrite (pbind_ok _ _ _ _ _ Hg).
      split_and!; [done|done|exact (repr_mono _ _ _ _ Hsub Hj)|].
      unfold returns_repr in Hret.
      destruct (Info.extract_from_ui fuel ui) as [ds|e|]; [|done|done].
      destruct Hret as (l & ws & -> & Hl & _ & _ & Hws).
      exists (VRef l). split; [done|].
      eapply repr_arr; [done|]. by eapply Forall2_repr_mono.
    + exists (Raise e), h. rewrite (pbind_raise _ _ _ _ _ Hg). by split_and!.
  - rewrite (pbind_ok _ _ _ _ _ Hc). unfold alloc.
    pose proof (fresh_None h) as Hl.
    eexists _, _. split; [done|]. split_and!.
    + by apply insert_subseteq.
    + eapply repr_mono; [|done]. by apply insert_subseteq.
    + eexists. split; [done|]. eapply repr_arr; [by rewrite lookup_insert_eq|constructor].
  - exists (Raise e), h. rewrite (pbind_raise _ _ _ _ _ Hc). by split_and!.
  - done.
Qed.

(** C8 on [gate_store]: the call returns a list with the descriptor of
    the button, and the three objects of the manifest are as before. *)
Lemma extract_items_info_frame_witness :
  exists r h',
    extract_items_info 3 (VRef 1) gate_store = (r, h') /\
    gate_store ⊆ h' /\
    repr h' (VRef 1) gate_document /\
    exists res,
      r = Val res /\
      repr h' res (JArr (map descriptor_json [Info.gate_descriptor])).
Proof.
  assert (Hrepr : repr gate_store (VRef 1) gate_document).
  { apply (repr_obj gate_store 1 [("ui", VRef 2)]); [reflexivity|].
    constructor; [|constructor]. split; [reflexivity|].
    apply (repr_arr gate_store 2 [VRef 3]); [reflexivity|].
    constructor; [|constructor].
    apply (repr_obj gate_store 3 [("type", VStr "button"); ("shortname", VStr "gate")]);
      [reflexivity|].
    repeat constructor. }
  assert (Hdepth : depth gate_document <= 3) by (vm_compute; lia).
  exact (extract_items_info_frame gate_store (VRef 1) gate_document 3 Hrepr Hdepth).
Defined.

(** X5: the list the extractor returns is a new object: its address
    was not in use before the call, so it is no part of the manifest
    and is shared with no earlier result. *)
Theorem extract_items_info_new_list h json_data j fuel res h' :
  repr h json_data j ->
  depth j <= fuel ->
  extract_items_info fuel json_data h = (Val res, h') ->
  exists l ws, res = VRef l /\ h !! l = None /\ h' !! l = Some (OList ws).
Proof.
  intros Hj Hfuel. unfold extract_items_info.
  pose proof (contains_repr h h json_data j "ui" (reflexivity _) Hj) as Hc.
  destruct (Py.contains j "ui") as [[]|e|].
  - rewrite (pbind_ok _ _ _ _ _ Hc).
    destruct (getitem_repr h h json_data j "ui" (reflexivity _) Hj) as (rg & Hg & Hres).
    destruct (Py.getitem j "ui") as [ui|e|]; [|subst rg|done].
    + destruct Hres as (vui & -> & Hui).
      destruct (extract_from_ui_refines fuel ui vui h h (reflexivity _) Hui)
        as (r & h1 & hs' & Hrun & _ & Hret).
      rewrite (pbind_ok _ _ _ _ _ Hg), Hrun. intros [= -> ->].
      unfold returns_repr in Hret.
      destruct (Info.extract_from_ui fuel ui) as [ds|e|]; [|done|done].
      destruct Hret as (l & ws & [= ->] & Hl & Hnew & _).
      by exists l, ws.
    + by rewrite (pbind_raise _ _ _ _ _ Hg).
  - rewrite (pbind_ok _ _ _ _ _ Hc). unfold alloc. intros [= <- <-].
    exists (fresh (dom h)), []. split_and!; [done|apply fresh_None|].
    by rewrite lookup_insert_eq.
  - by rewrite (pbind_raise _ _ _ _ _ Hc).
  - by rewrite (pbind_out_of_fuel _ _ _ _ Hc).
Qed.

(** X5 on [gate_store], where 1, 2 and 3 are in use: the list is at 4. *)
Lemma extract_items_info_new_list_witness :
  exists l ws,
    VRef 4 = VRef l /\ gate_store !! l = None /\
    (extract_items_info 3 (VRef 1) gate_store).2 !! l = Some (OList ws).
Proof.
  assert (Hrepr : repr gate_store (VRef 1) gate_document).
  { apply (repr_obj gate_store 1 [("ui", VRef 2)]); [reflexivity|].
    constructor; [|constructor]. split; [reflexivity|].
    apply (repr_arr gate_store 2 [VRef 3]); [reflexivity|].
    constructor; [|constructor].
    apply (repr_obj gate_store 3 [("type", VStr "button"); ("shortname", VStr "gate")]);
      [reflexivity|].
    repeat constructor. }
  assert (Hdepth : depth gate_document <= 3) by (vm_compute; lia).
  assert (Hrun : extract_items_info 3 (VRef 1) gate_store =
                 (Val (VRef 4), (extract_items_info 3 (VRef 1) gate_store).2))
    by (vm_compute; reflexivity).
  exact (extract_items_info_new_list gate_store (VRef 1) gate_document 3 (VRef 4) _
           Hrepr Hdepth Hrun).
Defined.

End HeapFacts.
